(** * Wikipedia corpus extraction: category traversal and section text

    A shallow embedding of [get_categorymembers], [get_page_text],
    [filter_by_keywords] and [get_section_text] (functions.py; the copies in
    extract_wikipedia_data.py are identical up to printing), and the
    properties of the two recursive traversals; then of [tokenize] and
    [prepare_text_for_lda] (functions.py) over a tokenizer that is a
    parameter, and of [get_authors] (extract_wikipedia_data.py) over the
    response of its request.

    Conventions of the embedding.
    - Python integers are [Z]; [None] for an optional argument is [None].
    - A Python list that is mutated in place lives in a store of list
      objects addressed by references; [pages.append] updates the cell.
    - The category graph may be cyclic, so [category.categorymembers] is a
      function of the content service and the recursion takes fuel: the
      result [None] means the recursion did not finish within the fuel.
    - [verbose] printing is not part of the model (it changes no value).
    - Strings are sequences of ASCII characters. *)

From stdpp Require Import gmap strings list fin_maps pretty.
From Stdlib Require Import ZArith Ascii String Lia.

Local Open Scope Z_scope.

(** ** Data model *)

(** A section of a page: [section.title], [section.text], [section.sections]. *)
Local Unset Elimination Schemes.
Inductive Section : Type :=
| mkSection (title : string) (text : string) (sections : list Section).
Local Set Elimination Schemes.

Definition section_title (s : Section) : string :=
  match s with mkSection t _ _ => t end.

Definition section_text (s : Section) : string :=
  match s with mkSection _ b _ => b end.

Definition section_sections (s : Section) : list Section :=
  match s with mkSection _ _ ss => ss end.

(** A page of the encyclopedia, as far as the functions read it:
    [page.title], [page.ns], [page.summary], [page.sections]. *)
Record Page : Type := mkPage {
  title : string;
  ns : Z;
  summary : string;
  sections : list Section
}.

(** [wikipediaapi.Namespace.MAIN] and [wikipediaapi.Namespace.CATEGORY]. *)
Module Namespace.
Definition MAIN : Z := 0.
Definition CATEGORY : Z := 14.
End Namespace.

(** ** The store of list objects *)

Definition ref := nat.

(** The mutable lists of pages, and the log of the categories whose member
    listing has been read (one entry per evaluation of
    [category.categorymembers]). *)
Record State : Type := mkState {
  heap : gmap nat (list Page);
  visited : list Page
}.

(** [pages = []]: a new list object. *)
Definition alloc (st : State) : ref * State :=
  let r := fresh (dom (heap st)) in
  (r, mkState (<[r := []]> (heap st)) (visited st)).

(** [pages.append(page)] on the object [r]. *)
Definition append (r : ref) (page : Page) (st : State) : State :=
  mkState (alter (fun l => l ++ [page]) r (heap st)) (visited st).

(** [if pages is None: pages = []]. *)
Definition pages_or_new (pages : option ref) (st : State) : ref * State :=
  match pages with
  | None => alloc st
  | Some r => (r, st)
  end.

(** Reading [category.categorymembers]. *)
Definition note_visit (category : Page) (st : State) : State :=
  mkState (heap st) (visited st ++ [category]).

(** ** get_categorymembers *)

(** One iteration of the loop [for page in members.values()]; the loop state
    is the store, [n_pages] and [subcategories]. *)
Definition scan_member (r : ref) (acc : State * Z * list Page) (page : Page)
  : State * Z * list Page :=
  let '(st, n_pages, subcategories) := acc in
  if ns page =? Namespace.MAIN then
    (append r page st, n_pages + 1, subcategories)
  else if ns page =? Namespace.CATEGORY then
    (st, n_pages, subcategories ++ [page])
  else acc.

(** The condition of the [if] that guards the recursion. *)
Definition recursion_allowed (n_pages_per_level_threshold : option Z)
    (n_pages level : Z) (max_level : option Z) : bool :=
  (match n_pages_per_level_threshold with
   | None => true
   | Some t => n_pages <? t
   end)
  &&
  (match max_level with
   | None => true
   | Some m => level <? m
   end).

(** [for cat in subcategories: body(cat)] where the body may run out of
    fuel. *)
Fixpoint for_each {A : Type} (body : A -> State -> option State)
    (l : list A) (st : State) : option State :=
  match l with
  | [] => Some st
  | x :: l' =>
      match body x st with
      | None => None
      | Some st' => for_each body l' st'
      end
  end.

Section Traversal.

(** The content service: the values of [category.categorymembers], in the
    order of the dictionary. *)
Variable categorymembers : Page -> list Page.

Fixpoint get_categorymembers (fuel : nat) (category : Page)
    (n_pages_per_level_threshold : option Z) (level : Z)
    (max_level : option Z) (pages : option ref) (st : State)
  : option (ref * State) :=
  match fuel with
  | O => None
  | S fuel' =>
      let '(r, st0) := pages_or_new pages st in
      let members := categorymembers category in
      let '(st1, n_pages, subcategories) :=
        fold_left (scan_member r) members (note_visit category st0, 0, []) in
      if recursion_allowed n_pages_per_level_threshold n_pages level max_level
      then
        match for_each
                (fun cat s =>
                   match get_categorymembers fuel' cat
                           n_pages_per_level_threshold (level + 1)
                           max_level (Some r) s with
                   | None => None
                   | Some (_, s') => Some s'
                   end)
                subcategories st1 with
        | None => None
        | Some st2 => Some (r, st2)
        end
      else Some (r, st1)
  end.

End Traversal.

(** ** Section text *)

(** [get_section_text(section, section_text_list=None)].  The list is
    threaded through the recursive calls, which append to it. *)
Fixpoint get_section_text (section : Section)
    (section_text_list : option (list string)) : list string :=
  match section with
  | mkSection _ text sections =>
      let l0 :=
        match section_text_list with
        | None => []
        | Some l => l
        end in
      let l1 := if String.eqb text "" then l0 else l0 ++ [text] in
      fold_left (fun l s => get_section_text s (Some l)) sections l1
  end.

(** ** Keyword filter *)

(** [str.lower] on ASCII letters. *)
Definition lower_ascii (c : ascii) : ascii :=
  let n := nat_of_ascii c in
  if ((65 <=? n) && (n <=? 90))%nat then ascii_of_nat (n + 32) else c.

Fixpoint lower (s : string) : string :=
  match s with
  | EmptyString => EmptyString
  | String c s' => String (lower_ascii c) (lower s')
  end.

(** Python's [re], for the patterns this development covers: literal
    characters and the alternation bar.  Any other character with a meaning
    of its own in the pattern syntax puts the pattern outside the fragment. *)
Module re.

Definition special : list ascii :=
  list_ascii_of_string ".^$*+?{}[]\()".

Definition is_special (c : ascii) : bool :=
  existsb (Ascii.eqb c) special.

Fixpoint plain (pattern : string) : bool :=
  match pattern with
  | EmptyString => true
  | String c p => negb (is_special c) && plain p
  end.

(** The branches of a pattern, left to right. *)
Fixpoint branches (pattern : string) : list string :=
  match pattern with
  | EmptyString => [EmptyString]
  | String c p =>
      if Ascii.eqb c "|" then EmptyString :: branches p
      else
        match branches p with
        | [] => [String c EmptyString]
        | b :: bs => String c b :: bs
        end
  end.

(** Does the literal [b] occur in [text] at some position? *)
Fixpoint occurs (b text : string) : bool :=
  String.prefix b text ||
  match text with
  | EmptyString => false
  | String _ text' => occurs b text'
  end.

(** [bool(re.search(pattern, text))]; [None] when the pattern is outside
    the fragment. *)
Definition search (pattern text : string) : option bool :=
  if plain pattern
  then Some (existsb (fun b => occurs b text) (branches pattern))
  else None.

End re.

(** [filter_by_keywords(text, keywords)]. *)
Definition filter_by_keywords (text : string) (keywords : list string)
  : option bool :=
  re.search (String.concat "|" keywords) (lower text).

(** ** get_page_text *)

(** One iteration of [for s in page.sections]. *)
Definition page_text_step (keywords : option (list string))
    (page_text : list string) (s : Section) : option (list string) :=
  match keywords with
  | None => Some (page_text ++ get_section_text s None)
  | Some kws =>
      match filter_by_keywords (section_title s) kws with
      | None => None
      | Some true => Some (page_text ++ get_section_text s None)
      | Some false => Some page_text
      end
  end.

(** The whole loop, from the accumulated [page_text]. *)
Fixpoint page_text_loop (keywords : option (list string))
    (l : list Section) (page_text : list string) : option (list string) :=
  match l with
  | [] => Some page_text
  | s :: l' =>
      match page_text_step keywords page_text s with
      | None => None
      | Some page_text' => page_text_loop keywords l' page_text'
      end
  end.

(** [get_page_text(page, keywords, use_summary_if_empty)]. *)
Definition get_page_text (page : Page) (keywords : option (list string))
    (use_summary_if_empty : bool) : option (list string) :=
  match page_text_loop keywords (sections page) [] with
  | None => None
  | Some page_text =>
      if use_summary_if_empty && (List.length page_text =? 0)%nat
      then Some (page_text ++ [summary page])
      else Some page_text
  end.

(** ** The behaviour the specification describes *)

(** The descend condition of the specification: (countThreshold is unbounded
    or directDocumentCount < countThreshold) and (maxDepth is unbounded or
    currentDepth < maxDepth). *)
Definition descend_condition (countThreshold : option Z)
    (directDocumentCount currentDepth : Z) (maxDepth : option Z) : Prop :=
  (countThreshold = None \/
   exists t, countThreshold = Some t /\ directDocumentCount < t)
  /\
  (maxDepth = None \/ exists m, maxDepth = Some m /\ currentDepth < m).

(** Concatenation of results each of which may be missing. *)
Fixpoint concat_results {A : Type} (l : list (option (list A)))
  : option (list A) :=
  match l with
  | [] => Some []
  | None :: _ => None
  | Some x :: l' =>
      match concat_results l' with
      | None => None
      | Some y => Some (x ++ y)
      end
  end.

Section Specification.

Variable listChildren : Page -> list Page.

(** The direct content-document children of a node, in listing order. *)
Definition direct_documents (c : Page) : list Page :=
  filter (fun p => ns p = Namespace.MAIN) (listChildren c).

(** The subcategories of a node, in listing order. *)
Definition direct_subcategories (c : Page) : list Page :=
  filter (fun p => ns p = Namespace.CATEGORY) (listChildren c).

(** A pre-order walk under the pruning bounds that emits [emit c] at every
    node [c] it reaches and then walks the subcategories of [c] in order,
    when the descend condition allows; [depth_left] bounds the depth of
    the walk. *)
Fixpoint walk (emit : Page -> list Page) (depth_left : nat) (c : Page)
    (countThreshold : option Z) (currentDepth : Z) (maxDepth : option Z)
  : option (list Page) :=
  match depth_left with
  | O => None
  | S d =>
      if recursion_allowed countThreshold
           (Z.of_nat (List.length (direct_documents c)))
           currentDepth maxDepth
      then
        match concat_results
                (map (fun sc =>
                        walk emit d sc countThreshold (currentDepth + 1)
                          maxDepth)
                     (direct_subcategories c)) with
        | None => None
        | Some below => Some (emit c ++ below)
        end
      else Some (emit c)
  end.

(** The result of [traverse] as the specification orders it: the direct
    documents of a node, then the results of its subcategories. *)
Definition traverse := walk direct_documents.

(** The nodes whose children are listed, in the order of the walk. *)
Definition listed := walk (fun c => [c]).

End Specification.

(** The store after the list object [r] has been extended by [new] and the
    log by [log]; every other list object is as before. *)
Definition extended (r : ref) (new log : list Page) (st : State) : State :=
  mkState (alter (fun l => l ++ new) r (heap st)) (visited st ++ log).

(** The contents of the list object [r]. *)
Definition contents (r : ref) (st : State) : option (list Page) :=
  heap st !! r.

(** The list a call returns: the contents of the returned list object in
    the final store. *)
Definition returned (res : option (ref * State)) : option (list Page) :=
  match res with
  | None => None
  | Some (r, st) => contents r st
  end.

(** The categories whose listing was read up to the end of a call. *)
Definition visited_after (res : option (ref * State)) : option (list Page) :=
  match res with
  | None => None
  | Some (_, st) => Some (visited st)
  end.

(** A top-level section that the keyword filter accepts. *)
Definition accepted (kws : list string) (s : Section) : bool :=
  match filter_by_keywords (section_title s) kws with
  | Some true => true
  | _ => false
  end.

(** All sections of a section tree in depth-first pre-order. *)
Fixpoint preorder (s : Section) : list Section :=
  match s with
  | mkSection _ _ ss => s :: flat_map preorder ss
  end.

(** The bodies of the sections of [l] that have a non-empty body. *)
Definition nonempty_bodies (l : list Section) : list string :=
  map section_text
      (List.filter (fun s => negb (String.eqb (section_text s) "")) l).

(** The sections that [extract] visits: the accepted top-level sections,
    each followed by all its descendants. *)
Definition visited_sections (keywordFilter : option (list string))
    (top : list Section) : list Section :=
  flat_map preorder
    (match keywordFilter with
     | None => top
     | Some kws => List.filter (accepted kws) top
     end).

(** The result of [extract] from the bodies collected: the summary stands
    in when nothing was collected and the fallback is on. *)
Definition with_fallback (useSummaryFallback : bool) (summary : string)
    (out : list string) : list string :=
  match out with
  | [] => if useSummaryFallback then [summary] else []
  | _ :: _ => out
  end.

(** A pattern matches a title regardless of letter case. *)
Definition matches_ignoring_case (pattern title : string) : option bool :=
  re.search (lower pattern) (lower title).

(** ** Example data *)

Module Examples.

Definition doc (t : string) : Page := mkPage t Namespace.MAIN "" [].
Definition cat (t : string) : Page := mkPage t Namespace.CATEGORY "" [].
Definition file (t : string) : Page := mkPage t 6 "" [].

(** "Mythology": two documents and the subcategory "Mythology/Norse" with
    three documents. *)
Definition mythology (c : Page) : list Page :=
  if String.eqb (title c) "Category:Mythology" then
    [doc "Myth"; cat "Category:Norse"; doc "Legend"]
  else if String.eqb (title c) "Category:Norse" then
    [doc "Odin"; doc "Thor"; doc "Loki"]
  else [].

(** Two subcategories that share the document "Thor". *)
Definition shared (c : Page) : list Page :=
  if String.eqb (title c) "Category:Gods" then
    [cat "Category:Aesir"; doc "Zeus"; cat "Category:Thunder"]
  else if String.eqb (title c) "Category:Aesir" then
    [doc "Odin"; doc "Thor"]
  else if String.eqb (title c) "Category:Thunder" then
    [doc "Thor"; file "File:Hammer.png"]
  else [].

(** A cycle: each of the two categories is a member of the other. *)
Definition cyclic (c : Page) : list Page :=
  if String.eqb (title c) "Category:A" then
    [doc "a"; cat "Category:B"]
  else if String.eqb (title c) "Category:B" then
    [doc "b"; cat "Category:A"]
  else [].

Definition empty_state : State := mkState ∅ [].

(** A store that holds one list with one page already in it. *)
Definition one_list : State := mkState {[ 0%nat := [doc "Old"] ]} [].

Definition Ragnarok : Page :=
  mkPage "Ragnarok" Namespace.MAIN "S"
    [ mkSection "Plot" "B1" [mkSection "Aftermath" "B2" []];
      mkSection "Reception" "B3" [] ].

(** A page whose sections all have an empty body. *)
Definition Stub : Page :=
  mkPage "Stub" Namespace.MAIN "S"
    [ mkSection "History" "" [mkSection "Early" "" []] ].

(** A page where a section with an empty body has a child with text. *)
Definition Nested : Page :=
  mkPage "Nested" Namespace.MAIN "S"
    [ mkSection "Plot" "" [mkSection "Act 1" "A1" [];
                           mkSection "Act 2" "A2" []];
      mkSection "Cast" "C" [] ].

End Examples.

(** ** Exceptions *)

(** The exceptions the remaining functions can end with, and the outcome of
    a call that may raise.  [NlpInputError] stands for the error of the
    tokenizer for an argument that is not a string. *)
Inductive Exception : Type :=
| TypeError (message : string)
| UnboundLocalError
| KeyError (key : string)
| IndexError
| NlpInputError.

Inductive outcome (A : Type) : Type :=
| Ok (a : A)
| Raise (e : Exception).

Arguments Ok {A} a.
Arguments Raise {A} e.

(** ** Tokens *)

(** A token of the tokenizer, as far as the functions read it:
    [token.text], [token.is_stop], [token.pos_], [token.lemma_]. *)
Module spacy.
Record Token : Type := mkToken {
  text : string;
  is_stop : bool;
  pos_ : string;
  lemma_ : string
}.
End spacy.

(** The values [prepare_text_for_lda] may be given as [text]: a string, a
    list, or a value that is neither a string nor iterable. *)
Local Unset Elimination Schemes.
Inductive PyValue : Type :=
| PyStr (s : string)
| PyInt (n : Z)
| PyList (items : list PyValue).
Local Set Elimination Schemes.

Section Tokens.

(** The tokenizer [spacy_nlp] on a string. *)
Variable spacy_nlp : string -> list spacy.Token.

(** [tokenize(text, remove_stopwords, min_len)]. *)
Definition tokenize (text : string) (remove_stopwords : bool) (min_len : Z)
  : list spacy.Token :=
  let doc := spacy_nlp text in
  if remove_stopwords then
    List.filter
      (fun token =>
         (min_len <=? Z.of_nat (String.length (spacy.text token)))
         && negb (spacy.is_stop token)) doc
  else
    List.filter
      (fun token => min_len <=? Z.of_nat (String.length (spacy.text token)))
      doc.

(** [tokenize(t, ...)] on an element of a list: the tokenizer takes
    strings only. *)
Definition tokenize_value (t : PyValue) (remove_stopwords : bool)
    (min_len : Z) : outcome (list spacy.Token) :=
  match t with
  | PyStr s => Ok (tokenize s remove_stopwords min_len)
  | _ => Raise NlpInputError
  end.

(** [for t in text: tokens += tokenize(t, ...)]. *)
Fixpoint tokenize_all (text : list PyValue) (min_len : Z)
    (tokens : list spacy.Token) : outcome (list spacy.Token) :=
  match text with
  | [] => Ok tokens
  | t :: text' =>
      match tokenize_value t true min_len with
      | Raise e => Raise e
      | Ok ts => tokenize_all text' min_len (tokens ++ ts)
      end
  end.

(** [t.pos_ in ['NOUN', 'VERB', 'ADJ', 'ADV']]. *)
Definition content_word (t : spacy.Token) : bool :=
  existsb (String.eqb (spacy.pos_ t))
    ["NOUN"; "VERB"; "ADJ"; "ADV"]%string.

(** The part of [prepare_text_for_lda] after [tokens] is bound. *)
Definition finish_tokens (tokens : list spacy.Token)
    (lemmatize pos_tagging : bool) : list string :=
  let tokens := if pos_tagging then List.filter content_word tokens
                else tokens in
  if lemmatize then map (fun t => lower (spacy.lemma_ t)) tokens
  else map (fun t => lower (spacy.text t)) tokens.

(** [prepare_text_for_lda(text, lemmatize, pos_tagging, min_len)].  For a
    list that does not start with a string no branch binds [tokens], and
    the first use of it raises. *)
Definition prepare_text_for_lda (text : PyValue)
    (lemmatize pos_tagging : bool) (min_len : Z) : outcome (list string) :=
  match text with
  | PyStr s => Ok (finish_tokens (tokenize s true min_len)
                     lemmatize pos_tagging)
  | PyList items =>
      match items with
      | [] => Ok []
      | PyStr _ :: _ =>
          match tokenize_all items min_len [] with
          | Raise e => Raise e
          | Ok tokens => Ok (finish_tokens tokens lemmatize pos_tagging)
          end
      | _ :: _ => Raise UnboundLocalError
      end
  | PyInt _ =>
      Raise (TypeError "`text` must be a string or an iterable of string.")
  end.

End Tokens.

(** ** get_authors *)

Module authors.

Definition newline : ascii := ascii_of_nat 10.

(** [str.isspace] on an ASCII character. *)
Definition is_space (c : ascii) : bool :=
  let n := nat_of_ascii c in
  ((9 <=? n) && (n <=? 13) || (28 <=? n) && (n <=? 32))%nat.

(** The characters the second pattern excludes: the brackets, [|], [+],
    [&], the apostrophe and the double quote (character 34). *)
Definition excluded (c : ascii) : bool :=
  existsb (Ascii.eqb c)
    (list_ascii_of_string "[]<>()|+&'" ++ [ascii_of_nat 34]).

(** [s] without the prefix [p], when it starts with it. *)
Fixpoint strip_prefix (p s : string) : option string :=
  match p, s with
  | EmptyString, _ => Some s
  | String a p', String b s' =>
      if Ascii.eqb a b then strip_prefix p' s' else None
  | String _ _, EmptyString => None
  end.

(** The leading blanks of [s] and what follows them. *)
Fixpoint blanks (s : string) : string * string :=
  match s with
  | String c s' =>
      if Ascii.eqb c " " then
        let '(b, r) := blanks s' in (String c b, r)
      else (EmptyString, s)
  | EmptyString => (EmptyString, EmptyString)
  end.

(** The characters before the first newline of [s] and what follows that
    newline; nothing when [s] has no newline. *)
Fixpoint line (s : string) : option (string * string) :=
  match s with
  | EmptyString => None
  | String c s' =>
      if Ascii.eqb c newline then Some (EmptyString, s')
      else
        match line s' with
        | None => None
        | Some (l, r) => Some (String c l, r)
        end
  end.

(** A match of ['author *=.*?\n'] that starts at the start of [s]: the
    matched text. *)
Definition match_author (s : string) : option string :=
  match strip_prefix "author" s with
  | None => None
  | Some r1 =>
      let '(b, r2) := blanks r1 in
      match r2 with
      | String c r3 =>
          if Ascii.eqb c "=" then
            match line r3 with
            | None => None
            | Some (l, _) =>
                Some ("author" ++ b ++ "=" ++ l ++ String newline "")%string
            end
          else None
      | EmptyString => None
      end
  end.

(** [re.search(r'author *=.*?\n', content)]: the text of the leftmost
    match, [None] when there is none. *)
Fixpoint search_author (content : string) : option string :=
  match match_author content with
  | Some g => Some g
  | None =>
      match content with
      | EmptyString => None
      | String _ content' => search_author content'
      end
  end.

(** [s.split('=', 1)]. *)
Fixpoint split_eq (s : string) : list string :=
  match s with
  | EmptyString => [EmptyString]
  | String c s' =>
      if Ascii.eqb c "=" then [EmptyString; s']
      else
        match split_eq s' with
        | [] => [String c EmptyString]
        | x :: r => String c x :: r
        end
  end.

Fixpoint lstrip (s : string) : string :=
  match s with
  | String c s' => if is_space c then lstrip s' else s
  | EmptyString => EmptyString
  end.

Fixpoint rstrip (s : string) : string :=
  match s with
  | EmptyString => EmptyString
  | String c s' =>
      match rstrip s' with
      | EmptyString => if is_space c then EmptyString else String c EmptyString
      | r => String c r
      end
  end.

(** [s.strip()]. *)
Definition strip (s : string) : string := rstrip (lstrip s).

(** The longest prefix of [s] without an excluded character. *)
Fixpoint run (s : string) : string :=
  match s with
  | EmptyString => EmptyString
  | String c s' => if excluded c then EmptyString else String c (run s')
  end.

(** [re.search('([^...]+)', s)] for the class of the source: the text of
    the leftmost match. *)
Fixpoint search_name (s : string) : option string :=
  match s with
  | EmptyString => None
  | String c s' => if excluded c then search_name s' else Some (run s)
  end.

(** The body of the loop for one page, given the content of its first
    revision. *)
Definition author_of (content : string) : outcome string :=
  match search_author content with
  | None => Ok "NA"%string
  | Some g =>
      match split_eq g with
      | _ :: after :: _ =>
          match search_name (strip after) with
          | None => Ok "NA"%string
          | Some name => Ok name
          end
      | _ => Raise IndexError
      end
  end.

(** The response of the request, [data = request.json()], as far as the
    function reads it: the dictionaries under ['query'] and ['pages'], the
    entry of a page under its id, its list under ['revisions'], and the
    content of a revision under ['*'].  A key that is absent is [None]. *)
Record Revision : Type := mkRevision {
  star : option string
}.

Record PageInfo : Type := mkPageInfo {
  revisions : option (list Revision)
}.

Record Query : Type := mkQuery {
  pages : option (gmap string PageInfo)
}.

Record Response : Type := mkResponse {
  query : option Query
}.

(** [data['query']['pages'][pageid]['revisions'][0]['*']], evaluated from
    left to right: each subscript raises for a missing key or index. *)
Definition content_of (data : Response) (pageid : string) : outcome string :=
  match query data with
  | None => Raise (KeyError "query")
  | Some q =>
      match pages q with
      | None => Raise (KeyError "pages")
      | Some ps =>
          match ps !! pageid with
          | None => Raise (KeyError pageid)
          | Some info =>
              match revisions info with
              | None => Raise (KeyError "revisions")
              | Some [] => Raise IndexError
              | Some (rev :: _) =>
                  match star rev with
                  | None => Raise (KeyError "*")
                  | Some content => Ok content
                  end
              end
          end
      end
  end.

(** [for pageid in pageids: ...], with [authors] the list built so far. *)
Fixpoint authors_loop (data : Response) (pageids : list string)
    (authors : list string) : outcome (list string) :=
  match pageids with
  | [] => Ok authors
  | pageid :: pageids' =>
      match content_of data pageid with
      | Raise e => Raise e
      | Ok content =>
          match author_of content with
          | Raise e => Raise e
          | Ok a => authors_loop data pageids' (authors ++ [a])
          end
      end
  end.

(** [get_authors(set_of_pages)], for pages given by their [pageid] and the
    response [data] of the request. *)
Definition get_authors (data : Response) (set_of_pages : list Z)
  : outcome (list string) :=
  let pageids := map (fun pageid => pretty pageid) set_of_pages in
  authors_loop data pageids [].

End authors.

(** An ASCII capital letter, and a string that has one. *)
Definition is_upper (c : ascii) : bool :=
  let n := nat_of_ascii c in ((65 <=? n) && (n <=? 90))%nat.

Fixpoint has_upper (s : string) : bool :=
  match s with
  | EmptyString => false
  | String c s' => is_upper c || has_upper s'
  end.

(** A value that is a string; a value [prepare_text_for_lda] is written
    for: a string or a list of strings. *)
Definition is_str (v : PyValue) : bool :=
  match v with
  | PyStr _ => true
  | _ => false
  end.

Definition string_or_strings (v : PyValue) : bool :=
  match v with
  | PyStr _ => true
  | PyInt _ => false
  | PyList items => forallb is_str items
  end.

(** Every character of a string passes a test. *)
Fixpoint all_chars (P : ascii -> bool) (s : string) : bool :=
  match s with
  | EmptyString => true
  | String c s' => P c && all_chars P s'
  end.

(** A string of blanks; a string without a newline; a string without a
    character that the pattern for names excludes. *)
Definition only_blanks : string -> bool :=
  all_chars (fun c => Ascii.eqb c " ").

Definition one_line : string -> bool :=
  all_chars (fun c => negb (Ascii.eqb c authors.newline)).

Definition clean : string -> bool :=
  all_chars (fun c => negb (authors.excluded c)).

(** Further example data. *)
Module MoreExamples.

Definition Mythology : Page := Examples.cat "Category:Mythology".

Definition mythology_documents : list Page :=
  [Examples.doc "Myth"; Examples.doc "Legend"; Examples.doc "Odin";
   Examples.doc "Thor"; Examples.doc "Loki"].

Definition mythology_categories : list Page :=
  [Examples.cat "Category:Mythology"; Examples.cat "Category:Norse"].

(** A tokenizer on words separated by single blanks: every word is a
    token, "the" is a stop word, words that end in "s" are nouns with the
    word without the "s" as lemma, all others are determiners. *)
Fixpoint words (s : string) : list string :=
  match s with
  | EmptyString => [EmptyString]
  | String c s' =>
      if Ascii.eqb c " " then EmptyString :: words s'
      else
        match words s' with
        | [] => [String c EmptyString]
        | w :: ws => String c w :: ws
        end
  end.

Fixpoint without_final_s (w : string) : option string :=
  match w with
  | EmptyString => None
  | String c EmptyString =>
      if Ascii.eqb c "s" then Some EmptyString else None
  | String c w' =>
      match without_final_s w' with
      | None => None
      | Some l => Some (String c l)
      end
  end.

Definition toy_token (w : string) : spacy.Token :=
  match without_final_s w with
  | Some l => spacy.mkToken w (String.eqb (lower w) "the") "NOUN" l
  | None => spacy.mkToken w (String.eqb (lower w) "the") "DET" w
  end.

Definition toy_nlp (s : string) : list spacy.Token :=
  map toy_token (words s).

(** The first revision of a page with an infobox, and a response with
    that page under the id 12, a page without infobox under 7, and an
    entry without revisions under 13, as for an id that no page has. *)
Definition infobox : string :=
  ("{{Infobox book" ++ String authors.newline
   "| name = Edda" ++ String authors.newline
   "| author = [[Snorri Sturluson]] (attributed)" ++ String authors.newline
   "| language = Old Norse" ++ String authors.newline "}}")%string.

Definition with_content (content : string) : authors.PageInfo :=
  authors.mkPageInfo (Some [authors.mkRevision (Some content)]).

Definition response : authors.Response :=
  authors.mkResponse
    (Some (authors.mkQuery
             (Some {[ "12"%string := with_content infobox;
                      "7"%string := with_content "A page without infobox.";
                      "13"%string := authors.mkPageInfo None ]}))).

(** The store after a call on "Mythology" without a list, from the empty
    store. *)
Definition after_mythology : State :=
  extended 0%nat mythology_documents mythology_categories
    (snd (alloc Examples.empty_state)).

(** The two categories of the cycle. *)
Definition on_cycle (c : Page) : Prop :=
  c = Examples.cat "Category:A" \/ c = Examples.cat "Category:B".

End MoreExamples.

(** * Properties *)

(** ** The store *)

Lemma extended_nil r st : extended r [] [] st = st.
Proof.
  destruct st as [h v]. unfold extended. simpl. f_equal.
  - apply alter_id. intros l _. apply app_nil_r.
  - apply app_nil_r.
Qed.

Lemma extended_extended r d1 v1 d2 v2 st :
  extended r d2 v2 (extended r d1 v1 st) = extended r (d1 ++ d2) (v1 ++ v2) st.
Proof.
  unfold extended. simpl. f_equal.
  - rewrite alter_alter_eq. apply alter_ext. intros l _. simpl.
    symmetry. apply app_assoc.
  - symmetry. apply app_assoc.
Qed.

Lemma append_extended r p st : append r p st = extended r [p] [] st.
Proof. unfold append, extended. by rewrite app_nil_r. Qed.

Lemma note_visit_extended r c st : note_visit c st = extended r [] [c] st.
Proof.
  unfold note_visit, extended. f_equal.
  symmetry. apply alter_id. intros l _. apply app_nil_r.
Qed.

Lemma contents_extended r new log st old :
  contents r st = Some old ->
  contents r (extended r new log st) = Some (old ++ new).
Proof.
  unfold contents, extended. simpl. intros H.
  by rewrite lookup_alter_eq, H.
Qed.

Lemma contents_extended_ne r r' new log st :
  r <> r' -> contents r' (extended r new log st) = contents r' st.
Proof.
  unfold contents, extended. simpl. intros H. by rewrite lookup_alter_ne.
Qed.

Lemma alloc_contents st : contents (fst (alloc st)) (snd (alloc st)) = Some [].
Proof. unfold contents, alloc. simpl. apply lookup_insert_eq. Qed.

(** ** The loop over the members *)

Section TraversalFacts.

Variable categorymembers : Page -> list Page.


Lemma scan_members r members : forall st n subs,
  fold_left (scan_member r) members (st, n, subs) =
  (extended r (filter (fun p => ns p = Namespace.MAIN) members) [] st,
   n + Z.of_nat
         (List.length (filter (fun p => ns p = Namespace.MAIN) members)),
   subs ++ filter (fun p => ns p = Namespace.CATEGORY) members).
Proof.
  induction members as [|p members IH]; intros st n subs.
  - simpl. rewrite extended_nil, Z.add_0_r, app_nil_r. reflexivity.
  - cbn [fold_left]. unfold scan_member at 2.
    destruct (Z.eqb_spec (ns p) Namespace.MAIN) as [Hm|Hm].
    + rewrite IH, append_extended, extended_extended.
      rewrite (filter_cons_True _ p members Hm).
      rewrite filter_cons_False
        by (rewrite Hm; unfold Namespace.MAIN, Namespace.CATEGORY; lia).
      cbn [List.length]. rewrite Nat2Z.inj_succ.
      replace (n + 1 + Z.of_nat
                 (List.length
                    (filter (fun p0 => ns p0 = Namespace.MAIN) members)))
        with (n + Z.succ (Z.of_nat
                 (List.length
                    (filter (fun p0 => ns p0 = Namespace.MAIN) members))))
        by lia.
      reflexivity.
    + rewrite (filter_cons_False _ p members Hm).
      destruct (Z.eqb_spec (ns p) Namespace.CATEGORY) as [Hc|Hc].
      * rewrite IH, (filter_cons_True _ p members Hc).
        rewrite <- app_assoc. reflexivity.
      * rewrite IH, (filter_cons_False _ p members Hc). reflexivity.
Qed.

Lemma concat_results_none {A B} (f g : A -> option (list B)) l :
  (forall x, f x = None -> g x = None) ->
  concat_results (map f l) = None -> concat_results (map g l) = None.
Proof.
  intros Hfg. induction l as [|x l IH]; simpl; [discriminate|].
  destruct (f x) eqn:Hf.
  - destruct (concat_results (map f l)); [discriminate|]. intros _.
    rewrite IH by reflexivity. by destruct (g x).
  - intros _. by rewrite (Hfg x Hf).
Qed.

(** Whether the walk finishes does not depend on what it emits. *)
Lemma walk_none e1 e2 fuel : forall c thr lvl ml,
  walk categorymembers e1 fuel c thr lvl ml = None ->
  walk categorymembers e2 fuel c thr lvl ml = None.
Proof.
  induction fuel as [|fuel IH]; intros c thr lvl ml; [reflexivity|].
  simpl. destruct (recursion_allowed _ _ _ _); [|discriminate].
  destruct (concat_results (map (fun sc => walk _ e1 _ _ _ _ _) _)) eqn:H1;
    [discriminate|].
  intros _. erewrite concat_results_none; [reflexivity| |exact H1].
  intros x. apply IH.
Qed.

(** The loop over the subcategories, given that the calls it makes behave
    as the walk does. *)
Lemma for_each_walk fuel r thr lvl ml
  (IH : forall c st,
      get_categorymembers categorymembers fuel c thr lvl ml (Some r) st =
      match traverse categorymembers fuel c thr lvl ml,
            listed categorymembers fuel c thr lvl ml with
      | Some d, Some v => Some (r, extended r d v st)
      | _, _ => None
      end) :
  forall subs st,
    for_each
      (fun cat s =>
         match get_categorymembers categorymembers fuel cat thr lvl ml
                 (Some r) s with
         | None => None
         | Some (_, s') => Some s'
         end) subs st =
    match concat_results
            (map (fun sc => traverse categorymembers fuel sc thr lvl ml)
                 subs),
          concat_results
            (map (fun sc => listed categorymembers fuel sc thr lvl ml)
                 subs) with
    | Some d, Some v => Some (extended r d v st)
    | _, _ => None
    end.
Proof.
  induction subs as [|sc subs IHs]; intros st.
  - simpl. by rewrite extended_nil.
  - cbn [for_each map concat_results]. rewrite IH.
    destruct (traverse _ fuel sc thr lvl ml) as [d|] eqn:Ht.
    + destruct (listed _ fuel sc thr lvl ml) as [v|] eqn:Hl.
      * rewrite IHs.
        destruct (concat_results (map (fun sc0 => traverse _ _ _ _ _ _) _));
          [|reflexivity].
        destruct (concat_results (map (fun sc0 => listed _ _ _ _ _ _) _));
          [|reflexivity].
        by rewrite extended_extended.
      * apply (walk_none _ (direct_documents categorymembers)) in Hl.
        unfold traverse in Ht. congruence.
    + reflexivity.
Qed.

(** The function run on an existing list object extends it by the
    documents of the walk, and logs the nodes of the walk. *)
Lemma get_categorymembers_walk fuel : forall c thr lvl ml r st,
  get_categorymembers categorymembers fuel c thr lvl ml (Some r) st =
  match traverse categorymembers fuel c thr lvl ml,
        listed categorymembers fuel c thr lvl ml with
  | Some d, Some v => Some (r, extended r d v st)
  | _, _ => None
  end.
Proof.
  induction fuel as [|fuel IH]; intros c thr lvl ml r st; [reflexivity|].
  cbn [get_categorymembers pages_or_new]. rewrite scan_members.
  rewrite (note_visit_extended r), extended_extended. cbn [app].
  rewrite Z.add_0_l. unfold traverse, listed. cbn [walk].
  fold (direct_documents categorymembers c).
  fold (direct_subcategories categorymembers c).
  destruct (recursion_allowed _ _ _ _).
  - rewrite for_each_walk by (intros; apply IH).
    unfold traverse, listed.
    destruct (concat_results
                (map (fun sc => walk _ (direct_documents _) _ _ _ _ _) _));
      [|reflexivity].
    destruct (concat_results
                (map (fun sc => walk _ (fun c0 => [c0]) _ _ _ _ _) _));
      [|reflexivity].
    by rewrite extended_extended.
  - reflexivity.
Qed.

(** The same for an optional list: a missing one is created first. *)
Lemma get_categorymembers_run fuel c thr lvl ml pages st :
  get_categorymembers categorymembers fuel c thr lvl ml pages st =
  match traverse categorymembers fuel c thr lvl ml,
        listed categorymembers fuel c thr lvl ml with
  | Some d, Some v =>
      Some (fst (pages_or_new pages st),
            extended (fst (pages_or_new pages st)) d v
              (snd (pages_or_new pages st)))
  | _, _ => None
  end.
Proof.
  destruct pages as [r|]; [apply get_categorymembers_walk|].
  rewrite <- get_categorymembers_walk.
  destruct fuel; [reflexivity|]. reflexivity.
Qed.

(** With a finite maximal level the walk finishes within the levels that
    are left. *)
Lemma concat_results_some {A B} (f : A -> option (list B)) l :
  (forall x, is_Some (f x)) -> is_Some (concat_results (map f l)).
Proof.
  intros Hf. induction l as [|x l IH]; simpl; [by eexists|].
  destruct (Hf x) as [y ->]. destruct IH as [z ->]. by eexists.
Qed.

Lemma walk_bounded emit m thr fuel : forall c lvl,
  (Z.to_nat (m - lvl) < fuel)%nat ->
  is_Some (walk categorymembers emit fuel c thr lvl (Some m)).
Proof.
  induction fuel as [|fuel IH]; intros c lvl Hf; [lia|].
  cbn [walk].
  destruct (recursion_allowed _ _ _ _) eqn:Hr; [|by eexists].
  apply andb_true_iff in Hr as [_ Hlt]. apply Z.ltb_lt in Hlt.
  destruct (concat_results_some
              (fun sc => walk categorymembers emit fuel sc thr (lvl + 1)
                           (Some m))
              (direct_subcategories categorymembers c)) as [y Hy].
  - intros x. apply IH. lia.
  - rewrite Hy. by eexists.
Qed.

Lemma recursion_allowed_spec thr n lvl ml :
  recursion_allowed thr n lvl ml = true <-> descend_condition thr n lvl ml.
Proof.
  unfold recursion_allowed, descend_condition.
  rewrite andb_true_iff. split.
  - intros [Ht Hm]. split.
    + destruct thr as [t|]; [right|by left].
      exists t. split; [done|]. by apply Z.ltb_lt.
    + destruct ml as [m|]; [right|by left].
      exists m. split; [done|]. by apply Z.ltb_lt.
  - intros [[->|(t & -> & Ht)] [->|(m & -> & Hm)]]; split;
      try done; by apply Z.ltb_lt.
Qed.

End TraversalFacts.

(** ** Category traversal *)

Section TraversalClaims.

Variable categorymembers : Page -> list Page.

Abbreviation run := (get_categorymembers categorymembers).

(** What a call returns for a list object with known contents. *)
Lemma returned_run fuel c thr lvl ml pages st old :
  contents (fst (pages_or_new pages st)) (snd (pages_or_new pages st))
    = Some old ->
  returned (run fuel c thr lvl ml pages st) =
  option_map (app old) (traverse categorymembers fuel c thr lvl ml).
Proof.
  intros Hold. rewrite get_categorymembers_run.
  destruct (traverse _ fuel c thr lvl ml) as [d|] eqn:Ht; [|reflexivity].
  destruct (listed _ fuel c thr lvl ml) as [v|] eqn:Hl.
  - simpl. by apply contents_extended.
  - apply (walk_none _ _ (direct_documents categorymembers)) in Hl.
    unfold traverse in Ht. congruence.
Qed.

Lemma returned_run_fresh fuel c thr lvl ml st :
  returned (run fuel c thr lvl ml None st) =
  traverse categorymembers fuel c thr lvl ml.
Proof.
  rewrite (returned_run _ _ _ _ _ _ _ []) by apply alloc_contents.
  by destruct (traverse _ _ _ _ _ _).
Qed.

(** One call, with the loop over the members resolved. *)
Lemma run_step fuel c thr lvl ml pages st :
  run (S fuel) c thr lvl ml pages st =
  if recursion_allowed thr
       (Z.of_nat (List.length (direct_documents categorymembers c))) lvl ml
  then
    match for_each
            (fun cat s =>
               match run fuel cat thr (lvl + 1) ml
                       (Some (fst (pages_or_new pages st))) s with
               | None => None
               | Some (_, s') => Some s'
               end)
            (direct_subcategories categorymembers c)
            (extended (fst (pages_or_new pages st))
               (direct_documents categorymembers c) [c]
               (snd (pages_or_new pages st))) with
    | None => None
    | Some st2 => Some (fst (pages_or_new pages st), st2)
    end
  else
    Some (fst (pages_or_new pages st),
          extended (fst (pages_or_new pages st))
            (direct_documents categorymembers c) [c]
            (snd (pages_or_new pages st))).
Proof.
  cbn [get_categorymembers].
  destruct (pages_or_new pages st) as [r st0]. cbn [fst snd].
  rewrite scan_members, (note_visit_extended r), extended_extended.
  cbn [app]. rewrite Z.add_0_l. reflexivity.
Qed.

(** A call that does not descend, on a new list. *)
Lemma run_pruned fuel c thr lvl ml st :
  recursion_allowed thr
    (Z.of_nat (List.length (direct_documents categorymembers c))) lvl ml
    = false ->
  returned (run (S fuel) c thr lvl ml None st)
    = Some (direct_documents categorymembers c) /\
  visited_after (run (S fuel) c thr lvl ml None st)
    = Some (visited st ++ [c]).
Proof.
  intros Hr. rewrite run_step, Hr. split; [|reflexivity].
  cbn [returned pages_or_new].
  rewrite (contents_extended _ _ _ _ []) by apply alloc_contents.
  reflexivity.
Qed.

(** The log after a call: the log before it, then the nodes of the walk. *)
Lemma visited_after_run fuel c thr lvl ml pages st :
  visited_after (run fuel c thr lvl ml pages st) =
  option_map (app (visited st)) (listed categorymembers fuel c thr lvl ml).
Proof.
  rewrite get_categorymembers_run.
  assert (Hvis : visited (snd (pages_or_new pages st)) = visited st)
    by (by destruct pages).
  destruct (traverse _ fuel c thr lvl ml) as [d|] eqn:Ht.
  - destruct (listed _ fuel c thr lvl ml) as [v|]; [|reflexivity].
    cbn [visited_after extended visited option_map]. by rewrite Hvis.
  - unfold traverse in Ht. unfold listed.
    by rewrite (walk_none _ _ (fun x => [x]) _ _ _ _ _ Ht).
Qed.

(** A call in the empty store gives the documents and the nodes of the
    walk. *)
Lemma run_alone fuel c thr lvl ml :
  returned (run fuel c thr lvl ml None (mkState ∅ []))
    = traverse categorymembers fuel c thr lvl ml /\
  visited_after (run fuel c thr lvl ml None (mkState ∅ []))
    = listed categorymembers fuel c thr lvl ml.
Proof.
  split; [apply returned_run_fresh|].
  rewrite visited_after_run. cbn [visited].
  by destruct (listed _ _ _ _ _ _).
Qed.

Lemma concat_results_elem {A B} (g : A -> option (list B)) l : forall res x,
  concat_results (map g l) = Some res -> x ∈ l ->
  exists y, g x = Some y /\ forall z, z ∈ y -> z ∈ res.
Proof.
  induction l as [|a l IH]; intros res x Hres Hx;
    [by apply elem_of_nil in Hx|].
  cbn [map concat_results] in Hres.
  destruct (g a) as [y|] eqn:Hg; [|discriminate].
  destruct (concat_results (map g l)) as [r|] eqn:Hr; [|discriminate].
  injection Hres as <-. apply elem_of_cons in Hx as [->|Hx].
  - exists y. split; [exact Hg|]. intros z Hz. apply elem_of_app. by left.
  - destruct (IH r x eq_refl Hx) as (y' & Hy' & Hsub).
    exists y'. split; [exact Hy'|]. intros z Hz. apply elem_of_app.
    right. by apply Hsub.
Qed.

(** The walk lists the node it starts from. *)
Lemma listed_start fuel c thr lvl ml v :
  listed categorymembers fuel c thr lvl ml = Some v -> c ∈ v.
Proof.
  destruct fuel as [|fuel]; [discriminate|].
  unfold listed. cbn [walk].
  destruct (recursion_allowed _ _ _ _).
  - destruct (concat_results _); [|discriminate].
    intros [= <-]. apply list_elem_of_here.
  - intros [= <-]. apply list_elem_of_here.
Qed.

(** C1: a call descends into the subcategories of its node exactly when
    the descend condition holds: (the threshold is None or the number of
    direct documents is below it) and (the maximal level is None or the
    level is below it).  When it holds, every subcategory is entered, in
    listing order and one level deeper: the list returned is the old
    contents, the direct documents, and then what a call on each
    subcategory returns on its own; the log is the node followed by the
    logs of those calls, so that every subcategory is in it; and the call
    returns exactly when all those calls do.  When it does not hold, the
    call returns the old contents and the direct documents alone and only
    the node itself is listed: the subcategories are dropped and add no
    document. *)
Theorem C1_descend_condition fuel c thr lvl ml pages st old :
  contents (fst (pages_or_new pages st)) (snd (pages_or_new pages st))
    = Some old ->
  let n := Z.of_nat (List.length (direct_documents categorymembers c)) in
  let below sc :=
    get_categorymembers categorymembers fuel sc thr (lvl + 1) ml None
      (mkState ∅ []) in
  (descend_condition thr n lvl ml ->
   returned (run (S fuel) c thr lvl ml pages st) =
   option_map (app (old ++ direct_documents categorymembers c))
     (concat_results
        (map (fun sc => returned (below sc))
             (direct_subcategories categorymembers c)))
   /\
   visited_after (run (S fuel) c thr lvl ml pages st) =
   option_map (fun logs => visited st ++ c :: logs)
     (concat_results
        (map (fun sc => visited_after (below sc))
             (direct_subcategories categorymembers c)))
   /\
   (forall log,
       visited_after (run (S fuel) c thr lvl ml pages st) = Some log ->
       exists logs,
         log = visited st ++ c :: logs /\
         forall sc,
           sc ∈ direct_subcategories categorymembers c -> sc ∈ logs))
  /\
  (~ descend_condition thr n lvl ml ->
   returned (run (S fuel) c thr lvl ml pages st)
   = Some (old ++ direct_documents categorymembers c) /\
   visited_after (run (S fuel) c thr lvl ml pages st)
   = Some (visited st ++ [c])).
Proof.
  intros Hold n below. subst n below. cbv beta.
  rewrite (returned_run _ _ _ _ _ _ _ _ Hold), visited_after_run.
  unfold traverse, listed. cbn [walk].
  rewrite (List.map_ext _ _
             (fun sc => proj1 (run_alone fuel sc thr (lvl + 1) ml))).
  rewrite (List.map_ext _ _
             (fun sc => proj2 (run_alone fuel sc thr (lvl + 1) ml))).
  unfold traverse, listed.
  split; intros H.
  - apply recursion_allowed_spec in H. rewrite H.
    split; [|split].
    + destruct (concat_results _) as [d|]; [|reflexivity].
      cbn [option_map]. by rewrite app_assoc.
    + by destruct (concat_results _).
    + destruct (concat_results
                  (map (fun sc => walk _ (fun x => [x]) _ _ _ _ _) _))
        as [logs|] eqn:Hlogs; [|discriminate].
      cbn [option_map app]. intros log [= <-]. exists logs.
      split; [reflexivity|]. intros sc Hsc.
      destruct (concat_results_elem _ _ _ _ Hlogs Hsc) as (y & Hy & Hsub).
      apply Hsub. by apply (listed_start fuel sc thr (lvl + 1) ml).
  - destruct (recursion_allowed _ _ _ _) eqn:Hr.
    + apply recursion_allowed_spec in Hr. contradiction.
    + split; reflexivity.
Qed.

(** C7: with maximal level 0 a call from a level that is not negative
    returns exactly the direct documents of the category, in listing
    order, whatever the threshold; and so does a call with threshold 0,
    whatever the level and the maximal level.  In both cases only the
    category itself is listed. *)
Theorem C7_zero_bounds fuel c st :
  (forall thr lvl, 0 <= lvl ->
     returned (run (S fuel) c thr lvl (Some 0) None st)
       = Some (direct_documents categorymembers c) /\
     visited_after (run (S fuel) c thr lvl (Some 0) None st)
       = Some (visited st ++ [c]))
  /\
  (forall lvl ml,
     returned (run (S fuel) c (Some 0) lvl ml None st)
       = Some (direct_documents categorymembers c) /\
     visited_after (run (S fuel) c (Some 0) lvl ml None st)
       = Some (visited st ++ [c])).
Proof.
  split.
  - intros thr lvl Hlvl. apply run_pruned.
    unfold recursion_allowed. apply andb_false_iff. right.
    apply Z.ltb_ge. exact Hlvl.
  - intros lvl ml. apply run_pruned.
    unfold recursion_allowed. apply andb_false_iff. left.
    apply Z.ltb_ge. lia.
Qed.

(** C8: with a finite maximal level the call returns, on every graph,
    cyclic or not, for every threshold and every list: each recursive call
    is one level deeper and a call descends only below the maximal level,
    so a nesting of calls of depth (max_level - level) + 1 is enough. *)
Theorem C8_terminates_with_max_level fuel c thr lvl m pages st :
  (Z.to_nat (m - lvl) < fuel)%nat ->
  is_Some
    (get_categorymembers categorymembers fuel c thr lvl (Some m) pages st).
Proof.
  intros Hfuel. rewrite get_categorymembers_run.
  destruct (walk_bounded categorymembers
              (direct_documents categorymembers) m thr fuel c lvl Hfuel)
    as [d Hd].
  destruct (walk_bounded categorymembers (fun x => [x]) m thr fuel c lvl
              Hfuel) as [v Hv].
  unfold traverse, listed. rewrite Hd, Hv. by eexists.
Qed.

(** C9: a call on a list supplied by the caller returns that same list
    object; its new contents are the old contents followed by the
    documents of this call, which are what the call returns when it is
    given no list (and it returns in the one case exactly when it does in
    the other); every other list object is unchanged. *)
Theorem C9_accumulator_extended fuel c thr lvl ml r st old :
  contents r st = Some old ->
  returned (run fuel c thr lvl ml (Some r) st)
  = option_map (app old) (returned (run fuel c thr lvl ml None st))
  /\
  (forall r' st',
      run fuel c thr lvl ml (Some r) st = Some (r', st') ->
      r' = r /\
      (exists new, contents r st' = Some (old ++ new)) /\
      (forall q, q <> r -> contents q st' = contents q st)).
Proof.
  intros Hold. split.
  - rewrite returned_run_fresh. by apply returned_run.
  - intros r' st' Hrun. rewrite get_categorymembers_walk in Hrun.
    destruct (traverse _ fuel c thr lvl ml) as [d|]; [|discriminate].
    destruct (listed _ fuel c thr lvl ml) as [v|]; [|discriminate].
    injection Hrun as <- <-. split; [reflexivity|]. split.
    + exists d. by apply contents_extended.
    + intros q Hq. by apply contents_extended_ne.
Qed.

End TraversalClaims.

(** C2: the list a call returns on a new list is the pre-order sequence of
    the specification: the direct documents of the node in listing order,
    then the whole result of its first subcategory, then of the second, and
    so on; in particular the call returns exactly when that walk finishes.
    Nothing is removed: a document that two subcategories share appears
    twice.  For "Mythology" with two documents and the subcategory "Norse"
    with three, the result without bounds is the two documents followed by
    the three. *)
Theorem C2_preorder_documents_first :
  (forall categorymembers fuel c thr lvl ml st,
      returned (get_categorymembers categorymembers fuel c thr lvl ml None st)
      = traverse categorymembers fuel c thr lvl ml)
  /\
  (forall categorymembers fuel c thr lvl ml,
      traverse categorymembers (S fuel) c thr lvl ml =
      if recursion_allowed thr
           (Z.of_nat (List.length (direct_documents categorymembers c)))
           lvl ml
      then
        option_map (app (direct_documents categorymembers c))
          (concat_results
             (map (fun sc =>
                     traverse categorymembers fuel sc thr (lvl + 1) ml)
                  (direct_subcategories categorymembers c)))
      else Some (direct_documents categorymembers c))
  /\
  returned (get_categorymembers Examples.mythology 2
              (Examples.cat "Category:Mythology") None 0 None None
              Examples.empty_state)
  = Some [Examples.doc "Myth"; Examples.doc "Legend";
          Examples.doc "Odin"; Examples.doc "Thor"; Examples.doc "Loki"]
  /\
  returned (get_categorymembers Examples.shared 2
              (Examples.cat "Category:Gods") None 0 None None
              Examples.empty_state)
  = Some [Examples.doc "Zeus"; Examples.doc "Odin"; Examples.doc "Thor";
          Examples.doc "Thor"].
Proof.
  split; [|split; [|split]].
  - intros. apply returned_run_fresh.
  - intros. unfold traverse. cbn [walk].
    destruct (recursion_allowed _ _ _ _); [|reflexivity].
    by destruct (concat_results _).
  - rewrite returned_run_fresh. vm_compute. reflexivity.
  - rewrite returned_run_fresh. vm_compute. reflexivity.
Qed.

(** C1 on "Mythology" from the empty store: without bounds the call enters
    "Norse"; with maximal level 0 it does not. *)
Lemma C1_descend_condition_witness :
  (returned
     (get_categorymembers Examples.mythology 2
        (Examples.cat "Category:Mythology") None 0 None None
        Examples.empty_state)
   = option_map
       (app ([] ++ direct_documents Examples.mythology
                     (Examples.cat "Category:Mythology")))
       (concat_results
          (map (fun sc =>
                  returned
                    (get_categorymembers Examples.mythology 1 sc None (0 + 1)
                       None None (mkState ∅ [])))
               (direct_subcategories Examples.mythology
                  (Examples.cat "Category:Mythology"))))
   /\
   exists logs,
     [Examples.cat "Category:Mythology"; Examples.cat "Category:Norse"]
     = visited Examples.empty_state
       ++ Examples.cat "Category:Mythology" :: logs /\
     forall sc,
       sc ∈ direct_subcategories Examples.mythology
              (Examples.cat "Category:Mythology") ->
       sc ∈ logs)
  /\
  returned
    (get_categorymembers Examples.mythology 2
       (Examples.cat "Category:Mythology") None 0 (Some 0) None
       Examples.empty_state)
  = Some ([] ++ direct_documents Examples.mythology
                  (Examples.cat "Category:Mythology")).
Proof.
  split; [split|].
  - apply (proj1 (C1_descend_condition Examples.mythology 1
                    (Examples.cat "Category:Mythology") None 0 None None
                    Examples.empty_state [] eq_refl)).
    split; left; reflexivity.
  - apply (proj1 (C1_descend_condition Examples.mythology 1
                    (Examples.cat "Category:Mythology") None 0 None None
                    Examples.empty_state [] eq_refl)).
    + split; left; reflexivity.
    + vm_compute; reflexivity.
  - apply (proj2 (C1_descend_condition Examples.mythology 1
                    (Examples.cat "Category:Mythology") None 0 (Some 0) None
                    Examples.empty_state [] eq_refl)).
    intros [_ [H|(m & H & Hlt)]]; [discriminate H|].
    injection H as <-. lia.
Defined.

(** C7 on "Mythology": level 0 and maximal level 0. *)
Lemma C7_zero_bounds_witness :
  0 <= 0 /\
  returned (get_categorymembers Examples.mythology 1
              (Examples.cat "Category:Mythology") None 0 (Some 0) None
              Examples.empty_state)
  = Some [Examples.doc "Myth"; Examples.doc "Legend"].
Proof.
  split; [lia|].
  apply (proj1 (C7_zero_bounds Examples.mythology 0
                  (Examples.cat "Category:Mythology") Examples.empty_state)
           None 0).
  lia.
Defined.

(** C8 on the graph with a cycle: maximal level 2 from level 0. *)
Lemma C8_terminates_with_max_level_witness :
  (Z.to_nat (2 - 0) < 3)%nat /\
  is_Some (get_categorymembers Examples.cyclic 3 (Examples.cat "Category:A")
             None 0 (Some 2) None Examples.empty_state).
Proof.
  split; [simpl; lia|].
  apply C8_terminates_with_max_level. simpl. lia.
Defined.

(** C9 on a list that already holds one page. *)
Lemma C9_accumulator_extended_witness :
  contents 0%nat Examples.one_list = Some [Examples.doc "Old"] /\
  returned (get_categorymembers Examples.mythology 2
              (Examples.cat "Category:Mythology") None 0 None (Some 0%nat)
              Examples.one_list)
  = option_map (app [Examples.doc "Old"])
      (returned (get_categorymembers Examples.mythology 2
                   (Examples.cat "Category:Mythology") None 0 None None
                   Examples.one_list)).
Proof.
  split; [reflexivity|].
  apply (C9_accumulator_extended Examples.mythology 2
           (Examples.cat "Category:Mythology") None 0 None 0%nat
           Examples.one_list [Examples.doc "Old"]).
  reflexivity.
Defined.

(** ** Section text *)

(** Induction over a section tree, with the property known for every
    subsection. *)
Lemma Section_ind (P : Section -> Prop) :
  (forall t b ss, List.Forall P ss -> P (mkSection t b ss)) ->
  forall s, P s.
Proof.
  intros Hnode. fix IH 1. intros [t b ss]. apply Hnode.
  induction ss as [|s ss IHss]; constructor; [apply IH|exact IHss].
Qed.

Lemma nonempty_bodies_app l1 l2 :
  nonempty_bodies (l1 ++ l2) = nonempty_bodies l1 ++ nonempty_bodies l2.
Proof. unfold nonempty_bodies. by rewrite List.filter_app, map_app. Qed.

Lemma nonempty_bodies_cons s l :
  nonempty_bodies (s :: l) =
  (if String.eqb (section_text s) "" then [] else [section_text s])
    ++ nonempty_bodies l.
Proof.
  unfold nonempty_bodies. simpl.
  by destruct (String.eqb (section_text s) "").
Qed.

(** The recursive collection appends, to the list it is given, the
    non-empty bodies of the section and of all its descendants in
    pre-order. *)
Lemma get_section_text_acc s : forall acc,
  get_section_text s (Some acc) = acc ++ nonempty_bodies (preorder s).
Proof.
  induction s as [t b ss IH] using Section_ind. intros acc.
  cbn [get_section_text preorder]. rewrite nonempty_bodies_cons.
  cbn [section_text].
  assert (Hfold : forall l,
             fold_left (fun l s => get_section_text s (Some l)) ss l =
             l ++ nonempty_bodies (flat_map preorder ss)).
  { induction IH as [|s ss Hs _ IHss]; intros l.
    - simpl. by rewrite app_nil_r.
    - cbn [fold_left flat_map]. rewrite Hs, IHss, nonempty_bodies_app.
      by rewrite app_assoc. }
  rewrite Hfold. destruct (String.eqb b ""); simpl.
  - reflexivity.
  - by rewrite <- app_assoc.
Qed.

Lemma get_section_text_new s :
  get_section_text s None = nonempty_bodies (preorder s).
Proof.
  transitivity (get_section_text s (Some [])).
  - by destruct s.
  - apply get_section_text_acc.
Qed.

Lemma page_text_loop_all l : forall acc,
  page_text_loop None l acc =
  Some (acc ++ nonempty_bodies (flat_map preorder l)).
Proof.
  induction l as [|s l IH]; intros acc.
  - simpl. by rewrite app_nil_r.
  - cbn [page_text_loop page_text_step flat_map].
    rewrite IH, get_section_text_new, nonempty_bodies_app.
    by rewrite app_assoc.
Qed.

Lemma filter_by_keywords_plain t kws :
  re.plain (String.concat "|" kws) = true ->
  filter_by_keywords t kws = Some (accepted kws (mkSection t "" [])).
Proof.
  unfold accepted, filter_by_keywords, re.search. cbn [section_title].
  intros ->. by destruct (existsb _ _).
Qed.

Lemma page_text_loop_filtered kws l :
  re.plain (String.concat "|" kws) = true ->
  forall acc,
    page_text_loop (Some kws) l acc =
    Some (acc ++ nonempty_bodies
                   (flat_map preorder (List.filter (accepted kws) l))).
Proof.
  intros Hplain. induction l as [|s l IH]; intros acc.
  - simpl. by rewrite app_nil_r.
  - cbn [page_text_loop page_text_step List.filter].
    rewrite (filter_by_keywords_plain _ _ Hplain).
    replace (accepted kws (mkSection (section_title s) "" []))
      with (accepted kws s) by (by destruct s).
    destruct (accepted kws s).
    + rewrite IH, get_section_text_new. cbn [flat_map].
      rewrite nonempty_bodies_app. by rewrite app_assoc.
    + apply IH.
Qed.

(** The function in terms of its loop. *)
Lemma get_page_text_loop page kws fb :
  get_page_text page kws fb =
  option_map (with_fallback fb (summary page))
    (page_text_loop kws (sections page) []).
Proof.
  unfold get_page_text.
  destruct (page_text_loop kws (sections page) []) as [out|]; [|reflexivity].
  simpl. destruct out, fb; reflexivity.
Qed.

(** The loop fails only where a keyword test has no value. *)
Lemma page_text_loop_none kws l : forall acc,
  page_text_loop kws l acc = None ->
  exists kws' sec,
    kws = Some kws' /\ List.In sec l /\
    filter_by_keywords (section_title sec) kws' = None.
Proof.
  induction l as [|s l IH]; intros acc; [discriminate|].
  cbn [page_text_loop].
  destruct (page_text_step kws acc s) as [acc'|] eqn:Hstep.
  - intros H. destruct (IH _ H) as (kws' & sec & Hk & Hin & Hf).
    exists kws', sec. split; [exact Hk|]. split; [by right|exact Hf].
  - intros _. unfold page_text_step in Hstep.
    destruct kws as [kws'|]; [|discriminate].
    exists kws', s. split; [reflexivity|]. split; [by left|].
    destruct (filter_by_keywords (section_title s) kws') as [[|]|];
      [discriminate..|reflexivity].
Qed.

(** C3: with a keyword filter (of patterns the model covers) the function
    collects the non-empty bodies of the accepted top-level sections, each
    followed by all its descendants in pre-order whatever their titles; a
    top-level section that is not accepted contributes nothing, nor does any
    section below it.  For "Ragnarok" with the filter {"plot"} the result is
    ["B1"; "B2"]. *)
Theorem C3_filter_top_level_only :
  (forall page kws fb,
      re.plain (String.concat "|" kws) = true ->
      get_page_text page (Some kws) fb =
      Some (with_fallback fb (summary page)
              (nonempty_bodies
                 (flat_map preorder
                    (List.filter (accepted kws) (sections page))))))
  /\
  (forall fb,
      get_page_text Examples.Ragnarok (Some ["plot"%string]) fb
      = Some ["B1"%string; "B2"%string]).
Proof.
  split.
  - intros page kws fb Hplain.
    rewrite get_page_text_loop, (page_text_loop_filtered _ _ Hplain).
    reflexivity.
  - intros [|]; reflexivity.
Qed.

Lemma C3_filter_top_level_only_witness :
  re.plain (String.concat "|" ["plot"%string]) = true /\
  get_page_text Examples.Ragnarok (Some ["plot"%string]) true =
  Some (with_fallback true (summary Examples.Ragnarok)
          (nonempty_bodies
             (flat_map preorder
                (List.filter (accepted ["plot"%string])
                   (sections Examples.Ragnarok))))).
Proof.
  split; [reflexivity|].
  apply (proj1 C3_filter_top_level_only). reflexivity.
Defined.

(** C4: when the loop over the top-level sections ends with nothing
    collected and the fallback is on, the result is the one-element list of
    the summary, whatever the summary is; a page without sections gives the
    summary alone with the fallback and the empty list without it; and the
    function has no failure of its own: it fails only where the keyword
    test of a top-level title does. *)
Theorem C4_summary_fallback :
  (forall page kws,
      page_text_loop kws (sections page) [] = Some [] ->
      get_page_text page kws true = Some [summary page])
  /\
  (forall t n smry kws fb,
      get_page_text (mkPage t n smry []) kws fb
      = Some (if fb then [smry] else []))
  /\
  (forall page kws fb,
      get_page_text page kws fb = None ->
      exists kws' sec,
        kws = Some kws' /\ List.In sec (sections page) /\
        filter_by_keywords (section_title sec) kws' = None).
Proof.
  split; [|split].
  - intros page kws H. unfold get_page_text. by rewrite H.
  - intros t n smry kws [|]; reflexivity.
  - intros page kws fb H. rewrite get_page_text_loop in H.
    destruct (page_text_loop kws (sections page) []) eqn:Hloop;
      [discriminate|].
    by apply (page_text_loop_none _ _ []).
Qed.

Lemma C4_summary_fallback_witness :
  (page_text_loop None
     (sections (mkPage "Empty" Namespace.MAIN ""
                  [mkSection "History" "" []])) [] = Some [] /\
   get_page_text (mkPage "Empty" Namespace.MAIN ""
                    [mkSection "History" "" []]) None true
   = Some [""%string])
  /\
  (get_page_text Examples.Nested (Some ["a(b"%string]) true = None /\
   exists kws' sec,
     Some ["a(b"%string] = Some kws' /\
     List.In sec (sections Examples.Nested) /\
     filter_by_keywords (section_title sec) kws' = None).
Proof.
  split; split.
  - reflexivity.
  - apply (proj1 C4_summary_fallback
             (mkPage "Empty" Namespace.MAIN "" [mkSection "History" "" []])
             None).
    reflexivity.
  - reflexivity.
  - apply (proj2 (proj2 C4_summary_fallback) Examples.Nested
             (Some ["a(b"%string]) true).
    reflexivity.
Defined.

(** C6, as the code has it: without a keyword filter the function collects,
    over all sections of the page at every depth in depth-first pre-order,
    the bodies that are not empty, in that order; a section with an empty
    body adds nothing itself while its descendants are still collected.
    That list is the result unless it is empty and the fallback is on, when
    the result is the summary alone. *)
Theorem C6_all_sections_preorder :
  (forall page fb,
      get_page_text page None fb =
      Some (with_fallback fb (summary page)
              (nonempty_bodies (flat_map preorder (sections page)))))
  /\
  get_page_text Examples.Nested None false
  = Some ["A1"%string; "A2"%string; "C"%string].
Proof.
  split; [|reflexivity].
  intros page fb. rewrite get_page_text_loop, page_text_loop_all.
  reflexivity.
Qed.

(** C6 as stated fails where no section has a body and the fallback is on:
    the result is the summary, which is the body of no section. *)
Lemma C6_counterexample :
  ~ (forall page fb,
        get_page_text page None fb =
        Some (nonempty_bodies (flat_map preorder (sections page)))).
Proof.
  intros H. specialize (H Examples.Stub true). vm_compute in H.
  discriminate H.
Qed.

(** C10: a keyword list that is present but empty accepts every top-level
    section: the joined pattern is the empty pattern, which is found in
    every title, so the result is that of a call without filter. *)
Theorem C10_empty_keywords_accept_all page fb :
  (forall t, filter_by_keywords t [] = Some true) /\
  get_page_text page (Some []) fb = get_page_text page None fb.
Proof.
  assert (Hall : forall t, filter_by_keywords t [] = Some true).
  { intros t. unfold filter_by_keywords, re.search. simpl.
    by destruct (lower t). }
  split; [exact Hall|].
  assert (Hloop : forall l acc,
             page_text_loop (Some []) l acc = page_text_loop None l acc).
  { induction l as [|s l IH]; intros acc; [reflexivity|].
    cbn [page_text_loop page_text_step]. rewrite Hall. apply IH. }
  by rewrite !get_page_text_loop, Hloop.
Qed.

(** ** The keyword filter *)

Lemma plain_append a b :
  re.plain (a ++ b)%string = re.plain a && re.plain b.
Proof.
  induction a as [|c a IH]; [reflexivity|].
  simpl. rewrite IH. by rewrite andb_assoc.
Qed.

Lemma branches_nonempty p : re.branches p <> [].
Proof.
  destruct p as [|c p]; [discriminate|]. simpl.
  destruct (Ascii.eqb c "|"); [discriminate|].
  destruct (re.branches p); discriminate.
Qed.

(** A bar between two patterns separates their branches. *)
Lemma branches_bar a b :
  re.branches (a ++ String "|" b)%string = re.branches a ++ re.branches b.
Proof.
  induction a as [|c a IH]; [reflexivity|].
  simpl. rewrite IH.
  destruct (Ascii.eqb c "|"); [reflexivity|].
  pose proof (branches_nonempty a) as Hne.
  destruct (re.branches a); [contradiction|reflexivity].
Qed.

Lemma concat_bar k k' ks :
  String.concat "|" (k :: k' :: ks)
  = (k ++ String "|" (String.concat "|" (k' :: ks)))%string.
Proof. reflexivity. Qed.

Lemma plain_concat kws :
  re.plain (String.concat "|" kws) = forallb re.plain kws.
Proof.
  induction kws as [|k [|k' ks] IH]; [reflexivity| |].
  - simpl. by rewrite andb_true_r.
  - rewrite concat_bar, plain_append. cbn [re.plain forallb].
    rewrite IH. reflexivity.
Qed.

(** The branches of the joined pattern are the branches of the keywords. *)
Lemma branches_concat kws :
  kws <> [] ->
  re.branches (String.concat "|" kws) = flat_map re.branches kws.
Proof.
  induction kws as [|k [|k' ks] IH]; [done| |]; intros _.
  - simpl. by rewrite app_nil_r.
  - rewrite concat_bar, branches_bar, IH by discriminate. reflexivity.
Qed.

Lemma search_true p t :
  re.search p t = Some true <->
  re.plain p = true /\
  exists b, List.In b (re.branches p) /\ re.occurs b t = true.
Proof.
  unfold re.search. destruct (re.plain p).
  - rewrite <- List.existsb_exists. split.
    + intros H. split; [reflexivity|]. congruence.
    + intros [_ ->]. reflexivity.
  - split; [discriminate|]. intros [H _]. discriminate.
Qed.

(** Within the fragment, the joined pattern is found exactly when one of
    the keywords, as written, is found. *)
Lemma filter_by_keywords_some_keyword t kws :
  kws <> [] -> forallb re.plain kws = true ->
  (filter_by_keywords t kws = Some true <->
   exists k, List.In k kws /\ re.search k (lower t) = Some true).
Proof.
  intros Hne Hplain. unfold filter_by_keywords.
  rewrite search_true, plain_concat, (branches_concat _ Hne).
  split.
  - intros (_ & b & Hb & Hocc).
    apply List.in_flat_map in Hb as (k & Hk & Hb).
    exists k. split; [exact Hk|]. apply search_true.
    split; [|by exists b].
    rewrite List.forallb_forall in Hplain. by apply Hplain.
  - intros (k & Hk & Hs). apply search_true in Hs as (_ & b & Hb & Hocc).
    split; [exact Hplain|]. exists b. split; [|exact Hocc].
    apply List.in_flat_map. by exists k.
Qed.

(** What the test does: for a non-empty list of keywords (patterns the
    model covers) it has a value; a title is accepted exactly when its
    lower-cased form matches at least one keyword as written; titles that
    differ in letter case only get the same answer; and the test agrees
    with a match that ignores case on both sides when every keyword is
    written in lower case. *)
Lemma filter_by_keywords_as_written title kws :
  kws <> [] -> forallb re.plain kws = true ->
  (exists b, filter_by_keywords title kws = Some b) /\
  (filter_by_keywords title kws = Some true <->
   exists k, List.In k kws /\ re.search k (lower title) = Some true) /\
  (forall title', lower title' = lower title ->
     filter_by_keywords title' kws = filter_by_keywords title kws) /\
  (List.Forall (fun k => lower k = k) kws ->
   (filter_by_keywords title kws = Some true <->
    exists k, List.In k kws /\ matches_ignoring_case k title = Some true)).
Proof.
  intros Hne Hplain. split; [|split; [|split]].
  - unfold filter_by_keywords, re.search. rewrite plain_concat, Hplain.
    by eexists.
  - by apply filter_by_keywords_some_keyword.
  - intros title' H. unfold filter_by_keywords. by rewrite H.
  - intros Hlow. rewrite (filter_by_keywords_some_keyword _ _ Hne Hplain).
    rewrite List.Forall_forall in Hlow. unfold matches_ignoring_case.
    split; intros (k & Hk & Hs); exists k; (split; [exact Hk|]).
    + by rewrite (Hlow k Hk).
    + by rewrite (Hlow k Hk) in Hs.
Qed.

(** C5: the test is not case-insensitive in the keywords.  The title "Plot"
    contains the keyword "Plot", and matches it when letter case is ignored
    on both sides, yet the test rejects it: only the title is lower-cased
    before the search, the keyword is searched as written.  On "Ragnarok"
    the keyword "Plot" therefore drops the section "Plot" that the keyword
    "plot" keeps. *)
Theorem C5_capital_keyword_rejected :
  re.search "Plot" "Plot" = Some true /\
  matches_ignoring_case "Plot" "Plot" = Some true /\
  filter_by_keywords "Plot" ["Plot"%string] = Some false /\
  filter_by_keywords "Plot" ["plot"%string] = Some true /\
  get_page_text Examples.Ragnarok (Some ["Plot"%string]) false = Some [] /\
  get_page_text Examples.Ragnarok (Some ["plot"%string]) false
  = Some ["B1"%string; "B2"%string].
Proof. repeat split; reflexivity. Qed.

(** Hence the test is not, for all titles and keywords, the match that
    ignores letter case on both sides. *)
Lemma filter_by_keywords_not_case_insensitive :
  ~ (forall title kws,
        kws <> [] -> forallb re.plain kws = true ->
        (filter_by_keywords title kws = Some true <->
         exists k,
           List.In k kws /\ matches_ignoring_case k title = Some true)).
Proof.
  intros H.
  destruct (H "Plot"%string ["Plot"%string]) as [_ Hback];
    [discriminate|reflexivity|].
  assert (Hfalse : filter_by_keywords "Plot" ["Plot"%string] = Some false)
    by reflexivity.
  rewrite Hback in Hfalse; [discriminate|].
  exists "Plot"%string. split; [by left|reflexivity].
Qed.

(** * Further properties *)

(** ** Category traversal *)

Section TraversalMore.

Variable categorymembers : Page -> list Page.

Lemma concat_results_Forall {A B} (P : B -> Prop)
    (f : A -> option (list B)) l : forall res,
  (forall x y, x ∈ l -> f x = Some y -> Forall P y) ->
  concat_results (map f l) = Some res -> Forall P res.
Proof.
  induction l as [|x l IH]; intros res Hf; simpl.
  - intros [= <-]. constructor.
  - destruct (f x) as [y|] eqn:Hx; [|discriminate].
    destruct (concat_results (map f l)) as [z|] eqn:Hz; [|discriminate].
    intros [= <-]. apply Forall_app. split.
    + apply (Hf x); [by left|exact Hx].
    + apply IH; [|reflexivity]. intros x' y' Hin. apply Hf. by right.
Qed.

(** What the walk emits has a property [P] when every node it reaches emits
    pages with [P]; [Q] holds of the nodes it reaches. *)
Lemma walk_Forall emit (P Q : Page -> Prop) :
  (forall c, Q c -> Forall P (emit c)) ->
  (forall c sc, sc ∈ direct_subcategories categorymembers c -> Q sc) ->
  forall fuel c thr lvl ml res,
    Q c -> walk categorymembers emit fuel c thr lvl ml = Some res ->
    Forall P res.
Proof.
  intros Hemit Hsub. induction fuel as [|fuel IH];
    intros c thr lvl ml res Hc; [discriminate|].
  cbn [walk]. destruct (recursion_allowed _ _ _ _).
  - destruct (concat_results _) as [below|] eqn:Hb; [|discriminate].
    intros [= <-]. apply Forall_app. split; [by apply Hemit|].
    revert Hb. apply concat_results_Forall.
    intros sc y Hin. apply IH. by apply (Hsub c).
  - intros [= <-]. by apply Hemit.
Qed.

Lemma concat_results_mono {A B} (f g : A -> option (list B)) l : forall res,
  (forall x y, f x = Some y -> g x = Some y) ->
  concat_results (map f l) = Some res ->
  concat_results (map g l) = Some res.
Proof.
  induction l as [|x l IH]; intros res Hfg; simpl; [done|].
  destruct (f x) as [y|] eqn:Hf; [|discriminate].
  rewrite (Hfg _ _ Hf).
  destruct (concat_results (map f l)) as [z|]; [|discriminate].
  by rewrite (IH z).
Qed.

Lemma walk_mono emit fuel : forall c thr lvl ml res,
  walk categorymembers emit fuel c thr lvl ml = Some res ->
  walk categorymembers emit (S fuel) c thr lvl ml = Some res.
Proof.
  induction fuel as [|fuel IH]; intros c thr lvl ml res; [discriminate|].
  intros H. cbn [walk] in H. cbn [walk].
  destruct (recursion_allowed _ _ _ _); [|exact H].
  destruct (concat_results
              (map (fun sc => walk _ emit fuel _ _ _ _) _)) as [y|] eqn:Hc;
    [|discriminate].
  erewrite concat_results_mono; [exact H| |exact Hc].
  intros x z. apply IH.
Qed.

Lemma walk_mono_plus emit fuel k c thr lvl ml res :
  walk categorymembers emit fuel c thr lvl ml = Some res ->
  walk categorymembers emit (fuel + k) c thr lvl ml = Some res.
Proof.
  intros H. induction k as [|k IH].
  - by rewrite Nat.add_0_r.
  - rewrite Nat.add_succ_r. by apply walk_mono.
Qed.

(** X1: only pages of the main namespace are returned: categories and
    pages of any other namespace never enter the list. *)
Theorem X1_only_main_pages_returned fuel c thr lvl ml st l :
  returned (get_categorymembers categorymembers fuel c thr lvl ml None st)
    = Some l ->
  Forall (fun p => ns p = Namespace.MAIN) l.
Proof.
  rewrite returned_run_fresh. unfold traverse.
  apply (walk_Forall _ _ (fun _ => True)); [| |exact I].
  - intros c' _. unfold direct_documents. apply Forall_forall.
    intros p Hp. by apply list_elem_of_filter in Hp as [Hp _].
  - done.
Qed.

(** X2: the member listing is read of the category the call is made on and,
    besides it, of pages of the category namespace only. *)
Theorem X2_only_categories_listed fuel c thr lvl ml pages st log :
  visited_after
    (get_categorymembers categorymembers fuel c thr lvl ml pages st)
    = Some log ->
  exists below,
    log = visited st ++ c :: below /\
    Forall (fun p => ns p = Namespace.CATEGORY) below.
Proof.
  rewrite get_categorymembers_run.
  destruct (traverse _ fuel c thr lvl ml) as [d|]; [|discriminate].
  destruct (listed _ fuel c thr lvl ml) as [v|] eqn:Hv; [|discriminate].
  cbn [visited_after extended visited]. intros [= <-].
  assert (Hvis : visited (snd (pages_or_new pages st)) = visited st)
    by (by destruct pages).
  rewrite Hvis. clear Hvis.
  destruct fuel as [|fuel]; [discriminate|].
  unfold listed in Hv. cbn [walk] in Hv.
  destruct (recursion_allowed _ _ _ _).
  - destruct (concat_results _) as [below|] eqn:Hb; [|discriminate].
    injection Hv as <-. exists below. split; [reflexivity|].
    revert Hb. apply concat_results_Forall. intros sc y Hin.
    apply (walk_Forall _ _ (fun p => ns p = Namespace.CATEGORY)).
    + intros p Hp. by constructor.
    + intros p sc' Hsc. unfold direct_subcategories in Hsc.
      by apply list_elem_of_filter in Hsc as [Hsc _].
    + unfold direct_subcategories in Hin.
      by apply list_elem_of_filter in Hin as [Hin _].
  - injection Hv as <-. exists []. split; [reflexivity|constructor].
Qed.

(** X3: the result does not depend on the fuel: a call that returns within
    some fuel returns the same list object and store with any more. *)
Theorem X3_result_independent_of_fuel fuel k c thr lvl ml pages st res :
  get_categorymembers categorymembers fuel c thr lvl ml pages st = Some res ->
  get_categorymembers categorymembers (fuel + k) c thr lvl ml pages st
    = Some res.
Proof.
  rewrite !get_categorymembers_run.
  destruct (traverse _ fuel c thr lvl ml) as [d|] eqn:Hd; [|discriminate].
  destruct (listed _ fuel c thr lvl ml) as [v|] eqn:Hv; [|discriminate].
  intros <-. unfold traverse, listed in *.
  by rewrite (walk_mono_plus _ _ k _ _ _ _ _ Hd),
             (walk_mono_plus _ _ k _ _ _ _ _ Hv).
Qed.

(** X4: without a maximal level the recursion does not end on a part of the
    graph that is closed under some subcategory and where the threshold
    never stops it (a cycle, for one): no nesting depth suffices. *)
Theorem X4_no_result_on_cycle_without_max_level (P : Page -> Prop) thr :
  (forall c t, P c -> thr = Some t ->
     Z.of_nat (List.length (direct_documents categorymembers c)) < t) ->
  (forall c, P c ->
     exists sc, sc ∈ direct_subcategories categorymembers c /\ P sc) ->
  forall c, P c ->
  forall fuel lvl pages st,
    get_categorymembers categorymembers fuel c thr lvl None pages st = None.
Proof.
  intros Hthr Hnext c Hc fuel lvl pages st.
  rewrite get_categorymembers_run.
  assert (Hnone : traverse categorymembers fuel c thr lvl None = None);
    [|by rewrite Hnone].
  unfold traverse. revert c Hc lvl.
  induction fuel as [|fuel IH]; intros c Hc lvl; [reflexivity|].
  cbn [walk].
  assert (Hr : recursion_allowed thr
                 (Z.of_nat (List.length (direct_documents categorymembers c)))
                 lvl None = true).
  { unfold recursion_allowed. rewrite andb_true_r.
    destruct thr as [t|]; [|reflexivity].
    apply Z.ltb_lt. by apply Hthr. }
  rewrite Hr. destruct (Hnext c Hc) as (sc & Hin & Hsc).
  assert (Hcr : forall l,
             sc ∈ l ->
             concat_results
               (map (fun x => walk categorymembers
                                (direct_documents categorymembers) fuel x thr
                                (lvl + 1) None) l) = None).
  { induction l as [|x l IHl]; intros Hl; [by apply elem_of_nil in Hl|].
    simpl. apply elem_of_cons in Hl as [<-|Hl].
    - by rewrite (IH sc Hsc).
    - rewrite (IHl Hl). by destruct (walk _ _ _ x _ _ _). }
  by rewrite (Hcr _ Hin).
Qed.

(** X5: two calls without a list get different list objects, and the
    second call leaves the list of the first as it was. *)
Theorem X5_new_list_per_call fuel c thr lvl ml st r1 st1
    fuel' c' thr' lvl' ml' r2 st2 :
  get_categorymembers categorymembers fuel c thr lvl ml None st
    = Some (r1, st1) ->
  get_categorymembers categorymembers fuel' c' thr' lvl' ml' None st1
    = Some (r2, st2) ->
  r1 <> r2 /\ contents r1 st2 = contents r1 st1.
Proof.
  rewrite !get_categorymembers_run.
  destruct (traverse _ fuel c thr lvl ml) as [d|]; [|discriminate].
  destruct (listed _ fuel c thr lvl ml) as [v|]; [|discriminate].
  destruct (traverse _ fuel' c' thr' lvl' ml') as [d'|]; [|discriminate].
  destruct (listed _ fuel' c' thr' lvl' ml') as [v'|]; [|discriminate].
  cbn [pages_or_new]. intros [= <- <-] [= <- <-].
  assert (Hin : fst (alloc st) ∈
                dom (heap (extended (fst (alloc st)) d v (snd (alloc st))))).
  { apply elem_of_dom. unfold extended, alloc. cbn [heap fst snd].
    rewrite lookup_alter_eq, lookup_insert_eq. by eexists. }
  set (st1 := extended (fst (alloc st)) d v (snd (alloc st))) in *.
  assert (Hne : fst (alloc st) <> fst (alloc st1)).
  { intros Heq. rewrite Heq in Hin at 1. unfold alloc in Hin.
    cbn [fst] in Hin. by apply is_fresh in Hin. }
  split; [exact Hne|].
  rewrite contents_extended_ne by (by apply not_eq_sym).
  unfold contents, alloc. cbn [heap snd]. cbn [fst] in Hne.
  by rewrite lookup_insert_ne by (by apply not_eq_sym).
Qed.

(** X6: a second call on the list of a first call appends the same
    documents once more: nothing is removed or merged. *)
Theorem X6_second_call_appends_again fuel c thr lvl ml r st old r' st' :
  contents r st = Some old ->
  get_categorymembers categorymembers fuel c thr lvl ml (Some r) st
    = Some (r', st') ->
  exists new,
    contents r st' = Some (old ++ new) /\
    returned
      (get_categorymembers categorymembers fuel c thr lvl ml (Some r) st')
    = Some ((old ++ new) ++ new).
Proof.
  intros Hold Hrun. rewrite get_categorymembers_walk in Hrun.
  destruct (traverse _ fuel c thr lvl ml) as [d|] eqn:Hd; [|discriminate].
  destruct (listed _ fuel c thr lvl ml) as [v|]; [|discriminate].
  injection Hrun as <- <-. exists d.
  assert (Hc : contents r (extended r d v st) = Some (old ++ d))
    by (by apply contents_extended).
  split; [exact Hc|].
  rewrite (returned_run _ _ _ _ _ _ _ _ (old ++ d)) by exact Hc.
  by rewrite Hd.
Qed.

(** X7: a category without subcategories gives exactly its direct
    documents, whatever the threshold, the level and the maximal level. *)
Theorem X7_leaf_category fuel c thr lvl ml st :
  direct_subcategories categorymembers c = [] ->
  returned
    (get_categorymembers categorymembers (S fuel) c thr lvl ml None st)
  = Some (direct_documents categorymembers c).
Proof.
  intros Hleaf. rewrite returned_run_fresh. unfold traverse. cbn [walk].
  rewrite Hleaf. simpl. rewrite app_nil_r.
  by destruct (recursion_allowed _ _ _ _).
Qed.

End TraversalMore.

Lemma X1_only_main_pages_returned_witness :
  returned (get_categorymembers Examples.shared 2
              (Examples.cat "Category:Gods") None 0 None None
              Examples.empty_state)
  = Some [Examples.doc "Zeus"; Examples.doc "Odin"; Examples.doc "Thor";
          Examples.doc "Thor"] /\
  Forall (fun p => ns p = Namespace.MAIN)
    [Examples.doc "Zeus"; Examples.doc "Odin"; Examples.doc "Thor";
     Examples.doc "Thor"].
Proof.
  split; [vm_compute; reflexivity|].
  apply (X1_only_main_pages_returned Examples.shared 2
           (Examples.cat "Category:Gods") None 0 None Examples.empty_state).
  vm_compute; reflexivity.
Defined.

Lemma X2_only_categories_listed_witness :
  visited_after
    (get_categorymembers Examples.shared 2 (Examples.cat "Category:Gods")
       None 0 None None Examples.empty_state)
  = Some [Examples.cat "Category:Gods"; Examples.cat "Category:Aesir";
          Examples.cat "Category:Thunder"] /\
  exists below,
    [Examples.cat "Category:Gods"; Examples.cat "Category:Aesir";
     Examples.cat "Category:Thunder"]
    = visited Examples.empty_state ++ Examples.cat "Category:Gods" :: below /\
    Forall (fun p => ns p = Namespace.CATEGORY) below.
Proof.
  split; [vm_compute; reflexivity|].
  apply (X2_only_categories_listed Examples.shared 2
           (Examples.cat "Category:Gods") None 0 None None
           Examples.empty_state).
  vm_compute; reflexivity.
Defined.

Lemma X3_result_independent_of_fuel_witness :
  get_categorymembers Examples.mythology 2 MoreExamples.Mythology None 0 None
    None Examples.empty_state
  = Some (0%nat, MoreExamples.after_mythology) /\
  get_categorymembers Examples.mythology (2 + 5) MoreExamples.Mythology None
    0 None None Examples.empty_state
  = Some (0%nat, MoreExamples.after_mythology).
Proof.
  split; [vm_compute; reflexivity|].
  apply X3_result_independent_of_fuel. vm_compute; reflexivity.
Defined.

Lemma X4_no_result_on_cycle_without_max_level_witness :
  MoreExamples.on_cycle (Examples.cat "Category:A") /\
  get_categorymembers Examples.cyclic 50 (Examples.cat "Category:A") None 0
    None None Examples.empty_state = None.
Proof.
  split; [by left|].
  apply (X4_no_result_on_cycle_without_max_level Examples.cyclic
           MoreExamples.on_cycle None).
  - intros c t _ Ht. discriminate Ht.
  - intros c [-> | ->].
    + exists (Examples.cat "Category:B"). split; [|by right].
      vm_compute. apply list_elem_of_here.
    + exists (Examples.cat "Category:A"). split; [|by left].
      vm_compute. apply list_elem_of_here.
  - by left.
Defined.

Lemma X5_new_list_per_call_witness :
  get_categorymembers Examples.mythology 2 MoreExamples.Mythology None 0 None
    None Examples.empty_state
  = Some (0%nat, MoreExamples.after_mythology) /\
  get_categorymembers Examples.mythology 1 (Examples.cat "Category:Norse")
    None 0 (Some 0) None MoreExamples.after_mythology
  = Some (1%nat,
          extended 1%nat
            [Examples.doc "Odin"; Examples.doc "Thor"; Examples.doc "Loki"]
            [Examples.cat "Category:Norse"]
            (snd (alloc MoreExamples.after_mythology))) /\
  0%nat <> 1%nat /\
  contents 0%nat
    (extended 1%nat
       [Examples.doc "Odin"; Examples.doc "Thor"; Examples.doc "Loki"]
       [Examples.cat "Category:Norse"]
       (snd (alloc MoreExamples.after_mythology)))
  = contents 0%nat MoreExamples.after_mythology.
Proof.
  split; [vm_compute; reflexivity|].
  split; [vm_compute; reflexivity|].
  apply (X5_new_list_per_call Examples.mythology 2 MoreExamples.Mythology
           None 0 None Examples.empty_state 0%nat
           MoreExamples.after_mythology
           1 (Examples.cat "Category:Norse") None 0 (Some 0)).
  - vm_compute; reflexivity.
  - vm_compute; reflexivity.
Defined.

Lemma X6_second_call_appends_again_witness :
  contents 0%nat Examples.one_list = Some [Examples.doc "Old"] /\
  get_categorymembers Examples.mythology 1 (Examples.cat "Category:Norse")
    None 0 None (Some 0%nat) Examples.one_list
  = Some (0%nat,
          extended 0%nat
            [Examples.doc "Odin"; Examples.doc "Thor"; Examples.doc "Loki"]
            [Examples.cat "Category:Norse"] Examples.one_list) /\
  exists new,
    contents 0%nat
      (extended 0%nat
         [Examples.doc "Odin"; Examples.doc "Thor"; Examples.doc "Loki"]
         [Examples.cat "Category:Norse"] Examples.one_list)
    = Some ([Examples.doc "Old"] ++ new) /\
    returned
      (get_categorymembers Examples.mythology 1
         (Examples.cat "Category:Norse") None 0 None (Some 0%nat)
         (extended 0%nat
            [Examples.doc "Odin"; Examples.doc "Thor"; Examples.doc "Loki"]
            [Examples.cat "Category:Norse"] Examples.one_list))
    = Some (([Examples.doc "Old"] ++ new) ++ new).
Proof.
  split; [reflexivity|].
  split; [vm_compute; reflexivity|].
  apply (X6_second_call_appends_again Examples.mythology 1
           (Examples.cat "Category:Norse") None 0 None 0%nat
           Examples.one_list [Examples.doc "Old"] 0%nat).
  - reflexivity.
  - vm_compute; reflexivity.
Defined.

Lemma X7_leaf_category_witness :
  direct_subcategories Examples.mythology (Examples.cat "Category:Norse")
    = [] /\
  returned
    (get_categorymembers Examples.mythology 1
       (Examples.cat "Category:Norse") (Some 1) 7 None None
       Examples.empty_state)
  = Some (direct_documents Examples.mythology
            (Examples.cat "Category:Norse")).
Proof.
  split; [reflexivity|].
  apply X7_leaf_category. reflexivity.
Defined.

(** ** Section text and keyword filter *)

Lemma nonempty_bodies_not_empty l :
  Forall (fun b => b <> ""%string) (nonempty_bodies l).
Proof.
  induction l as [|s l IH]; [constructor|].
  rewrite nonempty_bodies_cons.
  destruct (String.eqb_spec (section_text s) ""); [exact IH|].
  by constructor.
Qed.

Lemma nonempty_bodies_sublist chosen l :
  sublist chosen l ->
  sublist (nonempty_bodies (flat_map preorder chosen))
          (nonempty_bodies (flat_map preorder l)).
Proof.
  induction 1 as [|x l1 l2 _ IH|x l1 l2 _ IH]; [constructor| |].
  - cbn [flat_map]. rewrite !nonempty_bodies_app.
    by apply sublist_app.
  - cbn [flat_map]. rewrite nonempty_bodies_app.
    by apply sublist_inserts_l.
Qed.

(** What the loop collects, for any keywords: the bodies of some of the
    top-level sections, in order, each with all its descendants. *)
Lemma page_text_loop_some kws l : forall acc out,
  page_text_loop kws l acc = Some out ->
  exists chosen,
    sublist chosen l /\
    out = acc ++ nonempty_bodies (flat_map preorder chosen).
Proof.
  induction l as [|s l IH]; intros acc out.
  - intros [= <-]. exists []. split; [constructor|].
    by rewrite app_nil_r.
  - cbn [page_text_loop].
    destruct (page_text_step kws acc s) as [acc'|] eqn:Hstep;
      [|discriminate].
    intros Hloop. destruct (IH _ _ Hloop) as (chosen & Hsub & ->).
    assert (Hacc : acc' = acc ++ get_section_text s None \/ acc' = acc).
    { unfold page_text_step in Hstep. destruct kws as [kws'|].
      - destruct (filter_by_keywords _ _) as [[|]|];
          [left|right|discriminate]; congruence.
      - left. congruence. }
    destruct Hacc as [-> | ->].
    + exists (s :: chosen). split; [by constructor|].
      cbn [flat_map].
      by rewrite nonempty_bodies_app, get_section_text_new, app_assoc.
    + exists chosen. split; [by constructor|reflexivity].
Qed.

(** X8: a call of get_section_text on a list appends to it: the result is
    the given list followed by what the call returns without a list. *)
Theorem X8_section_text_appends s acc :
  get_section_text s (Some acc) = acc ++ get_section_text s None.
Proof. by rewrite get_section_text_acc, get_section_text_new. Qed.

(** X9: no empty string is collected: the texts of a section tree have
    none, and neither has the text of a page when the summary is not
    used. *)
Theorem X9_no_empty_text :
  (forall s, Forall (fun b => b <> ""%string) (get_section_text s None)) /\
  (forall page kws out,
      get_page_text page kws false = Some out ->
      Forall (fun b => b <> ""%string) out).
Proof.
  split.
  - intros s. rewrite get_section_text_new. apply nonempty_bodies_not_empty.
  - intros page kws out. rewrite get_page_text_loop.
    destruct (page_text_loop kws (sections page) []) as [o|] eqn:Hloop;
      [|discriminate].
    apply page_text_loop_some in Hloop as (chosen & _ & ->).
    cbn [option_map app]. intros [= <-].
    destruct (nonempty_bodies (flat_map preorder chosen)) eqn:Hn;
      [constructor|].
    cbn [with_fallback]. rewrite <- Hn. apply nonempty_bodies_not_empty.
Qed.

Lemma X9_no_empty_text_witness :
  get_page_text Examples.Nested None false
    = Some ["A1"%string; "A2"%string; "C"%string] /\
  Forall (fun b => b <> ""%string) ["A1"%string; "A2"%string; "C"%string].
Proof.
  split; [reflexivity|].
  apply (proj2 X9_no_empty_text Examples.Nested None). reflexivity.
Defined.

(** X10: with the summary fallback on, a result is never the empty list:
    it is the summary alone or a list of non-empty section texts. *)
Theorem X10_fallback_result_not_empty page kws out :
  get_page_text page kws true = Some out ->
  out <> [] /\
  (out = [summary page] \/ Forall (fun b => b <> ""%string) out).
Proof.
  rewrite get_page_text_loop.
  destruct (page_text_loop kws (sections page) []) as [o|] eqn:Hloop;
    [|discriminate].
  apply page_text_loop_some in Hloop as (chosen & _ & ->).
  cbn [option_map app]. intros [= <-].
  destruct (nonempty_bodies (flat_map preorder chosen)) eqn:Hn.
  - split; [discriminate|by left].
  - split; [discriminate|right]. cbn [with_fallback]. rewrite <- Hn.
    apply nonempty_bodies_not_empty.
Qed.

Lemma X10_fallback_result_not_empty_witness :
  get_page_text Examples.Stub (Some ["plot"%string]) true
    = Some ["S"%string] /\
  ["S"%string] <> [] /\
  (["S"%string] = [summary Examples.Stub] \/
   Forall (fun b => b <> ""%string) ["S"%string]).
Proof.
  split; [reflexivity|].
  apply (X10_fallback_result_not_empty Examples.Stub (Some ["plot"%string])).
  reflexivity.
Defined.

(** X11: a keyword filter only removes: without the fallback, the result
    with keywords is a subsequence of the result without. *)
Theorem X11_filter_only_removes page kws out :
  get_page_text page (Some kws) false = Some out ->
  exists all,
    get_page_text page None false = Some all /\ sublist out all.
Proof.
  rewrite !get_page_text_loop, page_text_loop_all.
  destruct (page_text_loop (Some kws) (sections page) []) as [o|] eqn:Hloop;
    [|discriminate].
  apply page_text_loop_some in Hloop as (chosen & Hsub & ->).
  cbn [option_map app]. intros [= <-].
  eexists. split; [reflexivity|].
  apply nonempty_bodies_sublist in Hsub.
  by destruct (nonempty_bodies (flat_map preorder chosen)),
              (nonempty_bodies (flat_map preorder (sections page))).
Qed.

Lemma X11_filter_only_removes_witness :
  get_page_text Examples.Ragnarok (Some ["plot"%string]) false
    = Some ["B1"%string; "B2"%string] /\
  exists all,
    get_page_text Examples.Ragnarok None false = Some all /\
    sublist ["B1"%string; "B2"%string] all.
Proof.
  split; [reflexivity|].
  apply (X11_filter_only_removes Examples.Ragnarok ["plot"%string]).
  reflexivity.
Defined.

Lemma search_empty_pattern t : re.search "" t = Some true.
Proof. unfold re.search. simpl. by destruct t. Qed.

Lemma filter_by_keywords_value t kws :
  forallb re.plain kws = true ->
  exists b, filter_by_keywords t kws = Some b.
Proof.
  intros Hplain. unfold filter_by_keywords, re.search.
  rewrite plain_concat, Hplain. by eexists.
Qed.

(** X12: keywords add up: for two non-empty lists of keywords (patterns the
    model covers), a title is accepted by both lists together exactly when
    one of the lists accepts it. *)
Theorem X12_keywords_add_up t kws1 kws2 :
  kws1 <> [] -> kws2 <> [] ->
  forallb re.plain kws1 = true -> forallb re.plain kws2 = true ->
  (filter_by_keywords t (kws1 ++ kws2) = Some true <->
   filter_by_keywords t kws1 = Some true \/
   filter_by_keywords t kws2 = Some true).
Proof.
  intros Hne1 Hne2 Hp1 Hp2.
  assert (Hne : kws1 ++ kws2 <> []) by (by destruct kws1).
  assert (Hp : forallb re.plain (kws1 ++ kws2) = true)
    by (by rewrite List.forallb_app, Hp1, Hp2).
  rewrite (filter_by_keywords_some_keyword _ _ Hne Hp).
  rewrite (filter_by_keywords_some_keyword _ _ Hne1 Hp1).
  rewrite (filter_by_keywords_some_keyword _ _ Hne2 Hp2).
  split.
  - intros (k & Hk & Hs). apply List.in_app_or in Hk as [Hk|Hk];
      [left|right]; by exists k.
  - intros [(k & Hk & Hs)|(k & Hk & Hs)]; exists k;
      (split; [apply List.in_or_app|exact Hs]); auto.
Qed.

Lemma X12_keywords_add_up_witness :
  filter_by_keywords "Cast list" (["plot"%string] ++ ["cast"%string])
  = Some true.
Proof.
  apply (proj2 (X12_keywords_add_up "Cast list" ["plot"%string]
                  ["cast"%string] ltac:(discriminate) ltac:(discriminate)
                  eq_refl eq_refl)).
  right. reflexivity.
Defined.

Lemma lower_ascii_not_upper c : is_upper (lower_ascii c) = false.
Proof.
  destruct c as [[] [] [] [] [] [] [] []]; reflexivity.
Qed.

Lemma lower_no_upper t : has_upper (lower t) = false.
Proof.
  induction t as [|c t IH]; [reflexivity|].
  simpl. by rewrite lower_ascii_not_upper, IH.
Qed.

Lemma prefix_has_upper b : forall t,
  String.prefix b t = true -> has_upper b = true -> has_upper t = true.
Proof.
  induction b as [|c b IH]; intros t; [discriminate 2|].
  destruct t as [|d t]; [discriminate|]. simpl.
  destruct (ascii_dec c d) as [<-|]; [|discriminate].
  intros Hp. destruct (is_upper c); [reflexivity|]. simpl.
  by apply IH.
Qed.

Lemma occurs_has_upper b t :
  re.occurs b t = true -> has_upper b = true -> has_upper t = true.
Proof.
  induction t as [|d t IH]; cbn [re.occurs].
  - rewrite orb_false_r. apply prefix_has_upper.
  - intros H Hb. apply orb_true_iff in H as [H|H].
    + by apply (prefix_has_upper b (String d t)).
    + cbn [has_upper]. rewrite (IH H Hb). apply orb_true_r.
Qed.

(** X13: keywords with a capital letter never match: when every branch of
    every keyword (patterns the model covers) has an ASCII capital letter,
    no title is accepted, since titles are compared in lower case. *)
Theorem X13_capital_keywords_never_match t kws :
  kws <> [] -> forallb re.plain kws = true ->
  forallb (fun k => forallb has_upper (re.branches k)) kws = true ->
  filter_by_keywords t kws = Some false.
Proof.
  intros Hne Hplain Hup.
  destruct (filter_by_keywords_value t kws Hplain) as [[|] Hb];
    [|exact Hb].
  apply (filter_by_keywords_some_keyword _ _ Hne Hplain) in Hb
    as (k & Hk & Hs).
  apply search_true in Hs as (_ & b & Hbin & Hocc).
  rewrite List.forallb_forall in Hup. specialize (Hup k Hk).
  rewrite List.forallb_forall in Hup. specialize (Hup b Hbin).
  pose proof (occurs_has_upper _ _ Hocc Hup) as Hlow.
  by rewrite lower_no_upper in Hlow.
Qed.

Lemma X13_capital_keywords_never_match_witness :
  filter_by_keywords "The Plot" ["Plot|Story"%string; "Cast"%string]
  = Some false.
Proof.
  apply X13_capital_keywords_never_match.
  - discriminate.
  - reflexivity.
  - reflexivity.
Defined.

(** X14: when the filter (of patterns the model covers) accepts no
    top-level section, the result is the summary alone with the fallback
    on and the empty list with it off. *)
Theorem X14_nothing_accepted page kws fb :
  re.plain (String.concat "|" kws) = true ->
  forallb (fun s => negb (accepted kws s)) (sections page) = true ->
  get_page_text page (Some kws) fb
  = Some (if fb then [summary page] else []).
Proof.
  intros Hplain Hnone.
  rewrite get_page_text_loop, (page_text_loop_filtered _ _ Hplain).
  assert (Hf : List.filter (accepted kws) (sections page) = []).
  { induction (sections page) as [|s l IH]; [reflexivity|].
    cbn [forallb] in Hnone. apply andb_true_iff in Hnone as [Hs Hl].
    cbn [List.filter]. apply negb_true_iff in Hs. rewrite Hs. by apply IH. }
  rewrite Hf. reflexivity.
Qed.

Lemma X14_nothing_accepted_witness :
  get_page_text Examples.Ragnarok (Some ["cast"%string]) true
  = Some (if true then [summary Examples.Ragnarok] else []).
Proof.
  apply X14_nothing_accepted; reflexivity.
Defined.

(** X15: an empty keyword accepts everything: a list of keywords (patterns
    the model covers) that has the empty string among them accepts every
    title. *)
Theorem X15_empty_keyword_accepts_all t kws :
  List.In ""%string kws -> forallb re.plain kws = true ->
  filter_by_keywords t kws = Some true.
Proof.
  intros Hin Hplain.
  apply filter_by_keywords_some_keyword; [by destruct kws|exact Hplain|].
  exists ""%string. split; [exact Hin|apply search_empty_pattern].
Qed.

Lemma X15_empty_keyword_accepts_all_witness :
  filter_by_keywords "Reception" ["plot"%string; ""%string] = Some true.
Proof.
  apply X15_empty_keyword_accepts_all; [right; left|]; reflexivity.
Defined.

(** ** Text preparation *)

Section TokensMore.

Variable spacy_nlp : string -> list spacy.Token.

Lemma finish_tokens_app a b lemmatize pos_tagging :
  finish_tokens (a ++ b) lemmatize pos_tagging
  = finish_tokens a lemmatize pos_tagging
    ++ finish_tokens b lemmatize pos_tagging.
Proof.
  unfold finish_tokens. destruct pos_tagging, lemmatize;
    by rewrite ?List.filter_app, map_app.
Qed.

Lemma tokenize_all_strings texts min_len : forall tokens,
  tokenize_all spacy_nlp (map PyStr texts) min_len tokens
  = Ok (tokens
        ++ List.concat (map (fun s => tokenize spacy_nlp s true min_len) texts)).
Proof.
  induction texts as [|s texts IH]; intros tokens.
  - simpl. by rewrite app_nil_r.
  - cbn [map tokenize_all tokenize_value List.concat]. rewrite IH.
    by rewrite app_assoc.
Qed.

(** X16: a list of strings is prepared string by string: the result is the
    concatenation, in order, of the results for the strings one at a time
    (and the empty list for no string). *)
Theorem X16_list_prepared_string_by_string texts lemmatize pos_tagging
    min_len :
  exists outs,
    Forall2
      (fun s out =>
         prepare_text_for_lda spacy_nlp (PyStr s) lemmatize pos_tagging
           min_len = Ok out)
      texts outs /\
    prepare_text_for_lda spacy_nlp (PyList (map PyStr texts)) lemmatize
      pos_tagging min_len
    = Ok (List.concat outs).
Proof.
  exists (map (fun s =>
                 finish_tokens (tokenize spacy_nlp s true min_len)
                   lemmatize pos_tagging) texts).
  split.
  - induction texts as [|s texts IH]; constructor; [reflexivity|exact IH].
  - destruct texts as [|s0 texts]; [reflexivity|].
    change (map PyStr (s0 :: texts)) with (PyStr s0 :: map PyStr texts).
    cbn [prepare_text_for_lda].
    change (PyStr s0 :: map PyStr texts) with (map PyStr (s0 :: texts)).
    rewrite tokenize_all_strings. cbn [app]. f_equal.
    induction (s0 :: texts) as [|s l IH]; [by destruct lemmatize, pos_tagging|].
    cbn [map List.concat]. by rewrite finish_tokens_app, IH.
Qed.

Lemma lower_ascii_idempotent c : lower_ascii (lower_ascii c) = lower_ascii c.
Proof.
  destruct c as [[] [] [] [] [] [] [] []]; reflexivity.
Qed.

Lemma lower_idempotent s : lower (lower s) = lower s.
Proof.
  induction s as [|c s IH]; [reflexivity|].
  simpl. by rewrite lower_ascii_idempotent, IH.
Qed.

Lemma finish_tokens_lower tokens lemmatize pos_tagging :
  Forall (fun w => lower w = w) (finish_tokens tokens lemmatize pos_tagging).
Proof.
  unfold finish_tokens. apply Forall_forall. intros w Hw.
  destruct lemmatize; apply list_elem_of_fmap in Hw as (t & -> & _);
    apply lower_idempotent.
Qed.

(** X17: every word of a result is in lower case, with and without
    lemmatization. *)
Theorem X17_words_lower_case text lemmatize pos_tagging min_len out :
  prepare_text_for_lda spacy_nlp text lemmatize pos_tagging min_len = Ok out ->
  Forall (fun w => lower w = w) out.
Proof.
  destruct text as [s|n|items]; cbn [prepare_text_for_lda].
  - intros [= <-]. apply finish_tokens_lower.
  - discriminate.
  - destruct items as [|[s|n|l] items]; try discriminate.
    + intros [= <-]. constructor.
    + destruct (tokenize_all _ _ _ _); [|discriminate].
      intros [= <-]. apply finish_tokens_lower.
Qed.

Lemma tokenize_all_outcome items min_len : forall tokens,
  if forallb is_str items
  then exists ts, tokenize_all spacy_nlp items min_len tokens = Ok ts
  else tokenize_all spacy_nlp items min_len tokens = Raise NlpInputError.
Proof.
  induction items as [|v items IH]; intros tokens; [by eexists|].
  cbn [forallb tokenize_all]. destruct v as [s|n|l]; try reflexivity.
  cbn [is_str tokenize_value andb]. apply IH.
Qed.

(** X18: the function returns a result exactly for a string and for a list
    of strings.  A value that is neither a string nor a list ends in the
    TypeError of the source; a list that starts with something else than a
    string ends in an UnboundLocalError, for [tokens] is never bound; a
    list that starts with a string and has another kind of element ends in
    the error of the tokenizer. *)
Theorem X18_prepare_outcomes lemmatize pos_tagging min_len :
  (forall text,
      string_or_strings text = true <->
      exists out,
        prepare_text_for_lda spacy_nlp text lemmatize pos_tagging min_len
        = Ok out) /\
  (forall v items,
      is_str v = false ->
      prepare_text_for_lda spacy_nlp (PyList (v :: items)) lemmatize
        pos_tagging min_len = Raise UnboundLocalError) /\
  (forall s items,
      forallb is_str items = false ->
      prepare_text_for_lda spacy_nlp (PyList (PyStr s :: items)) lemmatize
        pos_tagging min_len = Raise NlpInputError) /\
  (forall n, exists message,
      prepare_text_for_lda spacy_nlp (PyInt n) lemmatize pos_tagging min_len
      = Raise (TypeError message)).
Proof.
  assert (Hstr : forall s items,
             forallb is_str items = false ->
             prepare_text_for_lda spacy_nlp (PyList (PyStr s :: items))
               lemmatize pos_tagging min_len = Raise NlpInputError).
  { intros s items Hitems. cbn [prepare_text_for_lda].
    pose proof (tokenize_all_outcome (PyStr s :: items) min_len []) as H.
    cbn [forallb is_str andb] in H. rewrite Hitems in H. by rewrite H. }
  split; [|split; [|split]].
  - intros [s|n|items]; cbn [string_or_strings prepare_text_for_lda].
    + split; [by eexists|reflexivity].
    + split; [discriminate|]. intros [out H]. discriminate H.
    + destruct items as [|[s|n|l] items]; cbn [forallb is_str andb].
      * split; [by eexists|reflexivity].
      * destruct (forallb is_str items) eqn:Hitems.
        -- pose proof (tokenize_all_outcome (PyStr s :: items) min_len [])
             as H.
           cbn [forallb is_str andb] in H. rewrite Hitems in H.
           destruct H as [ts ->]. split; [by eexists|reflexivity].
        -- pose proof (Hstr s items Hitems) as H.
           cbn [prepare_text_for_lda] in H.
           split; [discriminate|]. intros [out Hout].
           rewrite H in Hout. discriminate Hout.
      * split; [discriminate|]. intros [out H]. discriminate H.
      * split; [discriminate|]. intros [out H]. discriminate H.
  - intros [s|n|l] items Hv; [discriminate Hv|reflexivity..].
  - exact Hstr.
  - intros n. by eexists.
Qed.

(** X19: the words of the result for a string are exactly those of the
    tokens of the text that are long enough, are no stop words and, with
    [pos_tagging], are nouns, verbs, adjectives or adverbs: the lemma of
    the token with [lemmatize], its text without, in lower case.  The
    length that counts is that of the token's text, not of the word that is
    returned. *)
Theorem X19_words_of_a_string s lemmatize pos_tagging min_len w :
  (exists out,
      prepare_text_for_lda spacy_nlp (PyStr s) lemmatize pos_tagging min_len
      = Ok out /\ w ∈ out) <->
  (exists t,
      t ∈ spacy_nlp s /\
      min_len <= Z.of_nat (String.length (spacy.text t)) /\
      spacy.is_stop t = false /\
      (pos_tagging = true -> content_word t = true) /\
      w = lower (if lemmatize then spacy.lemma_ t else spacy.text t)).
Proof.
  cbn [prepare_text_for_lda]. unfold finish_tokens, tokenize.
  assert (Hkeep : forall t,
             t ∈ (if pos_tagging
                  then List.filter content_word
                         (List.filter
                            (fun token =>
                               (min_len <=?
                                Z.of_nat (String.length (spacy.text token)))
                               && negb (spacy.is_stop token))
                            (spacy_nlp s))
                  else List.filter
                         (fun token =>
                            (min_len <=?
                             Z.of_nat (String.length (spacy.text token)))
                            && negb (spacy.is_stop token))
                         (spacy_nlp s)) <->
             t ∈ spacy_nlp s /\
             min_len <= Z.of_nat (String.length (spacy.text t)) /\
             spacy.is_stop t = false /\
             (pos_tagging = true -> content_word t = true)).
  { intros t. rewrite !list_elem_of_In.
    destruct pos_tagging; rewrite ?List.filter_In, andb_true_iff,
      Z.leb_le, negb_true_iff, <- !list_elem_of_In; intuition congruence. }
  split.
  - intros (out & [= <-] & Hw).
    destruct lemmatize; apply list_elem_of_fmap in Hw as (t & -> & Ht);
      apply Hkeep in Ht; exists t; intuition.
  - intros (t & Hin & Hlen & Hstop & Hpos & ->).
    eexists. split; [reflexivity|].
    destruct lemmatize; apply list_elem_of_fmap; exists t;
      (split; [reflexivity|]); apply Hkeep; intuition.
Qed.

End TokensMore.

Lemma X17_words_lower_case_witness :
  prepare_text_for_lda MoreExamples.toy_nlp (PyStr "The Gods fight Giants")
    false false 3
  = Ok ["gods"%string; "fight"%string; "giants"%string] /\
  Forall (fun w => lower w = w)
    ["gods"%string; "fight"%string; "giants"%string].
Proof.
  split; [reflexivity|].
  apply (X17_words_lower_case MoreExamples.toy_nlp
           (PyStr "The Gods fight Giants") false false 3).
  reflexivity.
Defined.

Lemma X18_prepare_outcomes_witness :
  is_str (PyInt 3) = false /\
  prepare_text_for_lda MoreExamples.toy_nlp
    (PyList [PyInt 3; PyStr "Gods"]) true true 3 = Raise UnboundLocalError.
Proof.
  split; [reflexivity|].
  apply (proj1 (proj2 (X18_prepare_outcomes MoreExamples.toy_nlp true true 3))).
  reflexivity.
Defined.

Lemma X19_words_of_a_string_witness :
  exists out,
    prepare_text_for_lda MoreExamples.toy_nlp (PyStr "The Gods") true true 3
    = Ok out /\ "god"%string ∈ out.
Proof.
  apply (proj2 (X19_words_of_a_string MoreExamples.toy_nlp "The Gods" true
                  true 3 "god")).
  exists (MoreExamples.toy_token "Gods"). split.
  - apply list_elem_of_further, list_elem_of_here.
  - split; [simpl; lia|]. split; [reflexivity|].
    split; [intros _|]; reflexivity.
Defined.

(** ** Authors *)

Lemma strip_prefix_prefix p : forall s,
  authors.strip_prefix p s = None <-> String.prefix p s = false.
Proof.
  induction p as [|a p IH]; intros s;
    [destruct s; simpl; split; intros H; discriminate H|].
  destruct s as [|b s]; [simpl; split; reflexivity|]. simpl.
  destruct (Ascii.eqb_spec a b) as [<-|Hab].
  - destruct (ascii_dec a a); [apply IH|done].
  - destruct (ascii_dec a b); [done|split; reflexivity].
Qed.

Lemma prefix_app_left p : forall x y,
  (String.length p <= String.length x)%nat ->
  String.prefix p (x ++ y) = String.prefix p x.
Proof.
  induction p as [|a p IH]; intros x y Hlen;
    [by destruct x, y|].
  destruct x as [|b x]; [simpl in Hlen; lia|]. simpl.
  destruct (ascii_dec a b); [|reflexivity].
  apply IH. simpl in Hlen. lia.
Qed.

Lemma blanks_only_blanks sp : forall rest,
  only_blanks sp = true ->
  (forall r, rest <> String " " r) ->
  authors.blanks (sp ++ rest) = (sp, rest).
Proof.
  induction sp as [|c sp IH]; intros rest Hsp Hrest.
  - simpl. destruct rest as [|c r]; [reflexivity|]. simpl.
    destruct (Ascii.eqb_spec c " ") as [->|]; [|reflexivity].
    by destruct (Hrest r).
  - cbn [only_blanks all_chars] in Hsp.
    apply andb_true_iff in Hsp as [Hc Hsp].
    simpl. rewrite Hc. fold only_blanks in Hsp. by rewrite (IH rest).
Qed.

Lemma line_one_line l : forall post,
  one_line l = true ->
  authors.line (l ++ String authors.newline post) = Some (l, post).
Proof.
  induction l as [|c l IH]; intros post Hl.
  - reflexivity.
  - cbn [one_line all_chars] in Hl. apply andb_true_iff in Hl as [Hc Hl].
    apply negb_true_iff in Hc. simpl.
    change (Ascii.eqb c (ascii_of_nat 10)) with (Ascii.eqb c authors.newline).
    rewrite Hc. fold one_line in Hl. by rewrite (IH post).
Qed.

Lemma split_eq_blanks sp : forall x,
  only_blanks sp = true ->
  authors.split_eq (sp ++ String "=" x) = [sp; x].
Proof.
  induction sp as [|c sp IH]; intros x Hsp; [reflexivity|].
  cbn [only_blanks all_chars] in Hsp.
  apply andb_true_iff in Hsp as [Hc Hsp].
  apply Ascii.eqb_eq in Hc as ->. fold only_blanks in Hsp.
  simpl. by rewrite (IH x).
Qed.

Lemma blanks_result s : forall b r,
  authors.blanks s = (b, r) -> only_blanks b = true /\ s = (b ++ r)%string.
Proof.
  induction s as [|c s IH]; intros b r.
  - intros [= <- <-]. done.
  - simpl. destruct (Ascii.eqb c " ") eqn:Hc.
    + destruct (authors.blanks s) as [b' r'] eqn:Hb. intros [= <- <-].
      destruct (IH _ _ eq_refl) as [Hb' ->].
      split; [|reflexivity]. cbn [only_blanks all_chars].
      by rewrite Hc.
    + intros [= <- <-]. done.
Qed.

(** A match of the first pattern is the word "author", blanks, "=", and the
    rest of the line with its newline. *)
Lemma match_author_shape s g :
  authors.match_author s = Some g ->
  exists sp l,
    only_blanks sp = true /\
    g = ("author" ++ sp ++ String "=" (l ++ String authors.newline ""))%string.
Proof.
  unfold authors.match_author.
  destruct (authors.strip_prefix "author" s) as [r1|]; [|discriminate].
  destruct (authors.blanks r1) as [b r2] eqn:Hb.
  destruct r2 as [|c r3]; [discriminate|].
  destruct (Ascii.eqb_spec c "=") as [->|]; [|discriminate].
  destruct (authors.line r3) as [[l r]|]; [|discriminate].
  intros [= <-]. exists b, l. split; [|reflexivity].
  by apply blanks_result in Hb as [Hb _].
Qed.

Lemma search_author_match content g :
  authors.search_author content = Some g ->
  exists s, authors.match_author s = Some g.
Proof.
  induction content as [|c content IH]; cbn [authors.search_author].
  - destruct (authors.match_author "") eqn:Hm; [|discriminate].
    intros [= <-]. by exists ""%string.
  - destruct (authors.match_author (String c content)) eqn:Hm.
    + intros [= <-]. by eexists.
    + exact IH.
Qed.

Lemma split_eq_before p : forall rest x r,
  all_chars (fun c => negb (Ascii.eqb c "=")) p = true ->
  authors.split_eq rest = x :: r ->
  authors.split_eq (p ++ rest) = (p ++ x)%string :: r.
Proof.
  induction p as [|c p IH]; intros rest x r Hp Hrest; [exact Hrest|].
  cbn [all_chars] in Hp. apply andb_true_iff in Hp as [Hc Hp].
  apply negb_true_iff in Hc.
  change (String c p ++ rest)%string with (String c (p ++ rest)).
  cbn [authors.split_eq]. by rewrite Hc, (IH rest x r Hp Hrest).
Qed.

Lemma split_eq_match sp l :
  only_blanks sp = true ->
  authors.split_eq
    ("author" ++ sp ++ String "=" (l ++ String authors.newline ""))
  = [("author" ++ sp)%string; (l ++ String authors.newline "")%string].
Proof.
  intros Hsp. apply split_eq_before; [reflexivity|].
  by apply split_eq_blanks.
Qed.

(** The result for one page in terms of the match. *)
Lemma author_of_match content :
  authors.author_of content =
  match authors.search_author content with
  | None => Ok "NA"%string
  | Some g =>
      match authors.split_eq g with
      | _ :: after :: _ =>
          Ok (default "NA"%string
                (authors.search_name (authors.strip after)))
      | _ => Raise IndexError
      end
  end.
Proof.
  unfold authors.author_of.
  destruct (authors.search_author content) as [g|]; [|reflexivity].
  destruct (authors.split_eq g) as [|x [|after r]]; try reflexivity.
  by destruct (authors.search_name (authors.strip after)).
Qed.

Lemma run_clean s : clean (authors.run s) = true.
Proof.
  induction s as [|c s IH]; [reflexivity|]. simpl.
  destruct (authors.excluded c) eqn:Hc; [reflexivity|].
  cbn [clean all_chars]. rewrite Hc. exact IH.
Qed.

Lemma search_name_clean s : forall n,
  authors.search_name s = Some n -> n <> ""%string /\ clean n = true.
Proof.
  induction s as [|c s IH]; intros n; [discriminate|].
  cbn [authors.search_name].
  destruct (authors.excluded c) eqn:Hc; [apply IH|].
  intros [= <-]. split; [|apply (run_clean (String c s))].
  by rewrite Hc.
Qed.

(** The body of the loop never raises, and what it gives is "NA" or a name
    found by the second pattern. *)
Lemma author_of_value content :
  exists a,
    authors.author_of content = Ok a /\ a <> ""%string /\ clean a = true.
Proof.
  rewrite author_of_match.
  destruct (authors.search_author content) as [g|] eqn:Hs.
  - apply search_author_match in Hs as [s Hm].
    apply match_author_shape in Hm as (sp & l & Hsp & ->).
    rewrite (split_eq_match _ _ Hsp).
    destruct (authors.search_name _) as [n|] eqn:Hn.
    + eexists. split; [reflexivity|]. by apply search_name_clean in Hn.
    + eexists. split; [reflexivity|]. done.
  - eexists. split; [reflexivity|]. done.
Qed.

Lemma string_app_cons x (a b : string) :
  (String x a ++ b)%string = String x (a ++ b).
Proof. reflexivity. Qed.

Lemma string_app_assoc (a b c : string) :
  ((a ++ b) ++ c = a ++ (b ++ c))%string.
Proof.
  induction a as [|x a IH]; [reflexivity|].
  by rewrite !string_app_cons, IH.
Qed.

Lemma string_length_app (a b : string) :
  String.length (a ++ b) = (String.length a + String.length b)%nat.
Proof.
  induction a as [|x a IH]; [reflexivity|].
  rewrite string_app_cons. cbn [String.length]. by rewrite IH.
Qed.

Lemma all_chars_app P (a b : string) :
  all_chars P (a ++ b) = all_chars P a && all_chars P b.
Proof.
  induction a as [|x a IH]; [reflexivity|].
  rewrite string_app_cons. cbn [all_chars].
  by rewrite IH, andb_assoc.
Qed.

Lemma strip_prefix_app p : forall s r,
  authors.strip_prefix p s = Some r -> s = (p ++ r)%string.
Proof.
  induction p as [|a p IH]; intros s r; [by intros [= <-]|].
  destruct s as [|b s]; [discriminate|]. simpl.
  destruct (Ascii.eqb_spec a b) as [<-|]; [|discriminate].
  intros H. by rewrite (IH _ _ H).
Qed.

Lemma strip_prefix_self p r : authors.strip_prefix p (p ++ r) = Some r.
Proof.
  induction p as [|a p IH]; [reflexivity|]. simpl.
  by rewrite Ascii.eqb_refl.
Qed.

Lemma line_none s : one_line s = true -> authors.line s = None.
Proof.
  induction s as [|c s IH]; [reflexivity|].
  cbn [one_line all_chars]. intros H. apply andb_true_iff in H as [Hc Hs].
  apply negb_true_iff in Hc. cbn [authors.line]. rewrite Hc.
  fold one_line in Hs. by rewrite (IH Hs).
Qed.

Lemma match_author_one_line s :
  one_line s = true -> authors.match_author s = None.
Proof.
  intros Hs. unfold authors.match_author.
  destruct (authors.strip_prefix "author" s) as [r1|] eqn:H1;
    [|reflexivity].
  apply strip_prefix_app in H1 as ->.
  destruct (authors.blanks r1) as [b r2] eqn:Hb.
  apply blanks_result in Hb as [_ ->].
  unfold one_line in Hs. rewrite !all_chars_app in Hs.
  apply andb_true_iff in Hs as [_ Hs]. apply andb_true_iff in Hs as [_ Hs].
  destruct r2 as [|c r3]; [reflexivity|].
  destruct (Ascii.eqb c "="); [|reflexivity].
  cbn [all_chars] in Hs. apply andb_true_iff in Hs as [_ Hs].
  by rewrite (line_none r3 Hs).
Qed.

Lemma search_author_one_line s :
  one_line s = true -> authors.search_author s = None.
Proof.
  induction s as [|c s IH]; intros Hs.
  - reflexivity.
  - cbn [authors.search_author]. rewrite (match_author_one_line _ Hs).
    cbn [one_line all_chars] in Hs. apply andb_true_iff in Hs as [_ Hs].
    by apply IH.
Qed.

Lemma match_author_no_prefix s :
  String.prefix "author" s = false -> authors.match_author s = None.
Proof.
  intros H. unfold authors.match_author.
  apply strip_prefix_prefix in H. by rewrite H.
Qed.

Lemma search_author_no_occurrence s :
  re.occurs "author" s = false -> authors.search_author s = None.
Proof.
  induction s as [|c s IH]; cbn [re.occurs authors.search_author];
    intros H; apply orb_false_iff in H as [Hp Hs].
  - by rewrite (match_author_no_prefix _ Hp).
  - rewrite (match_author_no_prefix _ Hp). by apply IH.
Qed.

(** No match starts in a prefix where the word "author" does not start. *)
Lemma search_author_skip pre rest :
  re.occurs "author" (pre ++ "autho") = false ->
  authors.search_author (pre ++ "author" ++ rest)
  = authors.search_author ("author" ++ rest).
Proof.
  induction pre as [|c pre IH]; intros H; [reflexivity|].
  change (String c pre ++ "autho")%string
    with (String c (pre ++ "autho")) in H.
  cbn [re.occurs] in H. apply orb_false_iff in H as [Hp Hs].
  change (String c pre ++ "author" ++ rest)%string
    with (String c (pre ++ "author" ++ rest)).
  cbn [authors.search_author].
  rewrite match_author_no_prefix; [by apply IH|].
  replace (String c (pre ++ "author" ++ rest))
    with (String c (pre ++ "autho") ++ String "r" rest)%string.
  - rewrite prefix_app_left; [exact Hp|].
    cbn [String.length]. rewrite string_length_app. simpl. lia.
  - change (String c (pre ++ "autho") ++ String "r" rest)%string
      with (String c ((pre ++ "autho") ++ String "r" rest)).
    by rewrite string_app_assoc.
Qed.

Lemma match_author_field sp l post :
  only_blanks sp = true -> one_line l = true ->
  authors.match_author
    ("author" ++ sp ++ String "=" (l ++ String authors.newline post))
  = Some ("author" ++ sp ++ String "=" (l ++ String authors.newline ""))%string.
Proof.
  intros Hsp Hl. unfold authors.match_author.
  rewrite strip_prefix_self.
  rewrite (blanks_only_blanks sp _ Hsp) by (intros r; discriminate).
  rewrite Ascii.eqb_refl. by rewrite (line_one_line l post Hl).
Qed.

(** The first field decides: the result is read from the line of the first
    place where "author", blanks and "=" stand before a newline. *)
Lemma author_of_first_field pre sp l post :
  re.occurs "author" (pre ++ "autho") = false ->
  only_blanks sp = true -> one_line l = true ->
  authors.author_of
    (pre ++ "author" ++ sp ++ String "=" (l ++ String authors.newline post))
  = Ok (default "NA"%string
          (authors.search_name
             (authors.strip (l ++ String authors.newline "")))).
Proof.
  intros Hpre Hsp Hl. rewrite author_of_match.
  rewrite (search_author_skip pre _ Hpre).
  assert (Hs : authors.search_author
                 ("author" ++ sp ++
                  String "=" (l ++ String authors.newline post))
               = Some ("author" ++ sp ++
                       String "=" (l ++ String authors.newline ""))%string).
  { pose proof (match_author_field sp l post Hsp Hl) as Hm.
    change ("author" ++ sp ++ String "=" (l ++ String authors.newline post))%string
      with (String "a" ("uthor" ++ sp ++
                        String "=" (l ++ String authors.newline post)))
      in Hm |- *.
    cbn [authors.search_author]. by rewrite Hm. }
  rewrite Hs, (split_eq_match _ _ Hsp). reflexivity.
Qed.

Lemma authors_loop_run data pageids : forall acc,
  (forall id, id ∈ pageids ->
     exists content, authors.content_of data (pretty id) = Ok content) ->
  exists new,
    authors.authors_loop data (map (fun id : Z => pretty id) pageids) acc
      = Ok (acc ++ new) /\
    Forall2
      (fun id a =>
         exists content,
           authors.content_of data (pretty id) = Ok content /\
           authors.author_of content = Ok a)
      pageids new.
Proof.
  induction pageids as [|id pageids IH]; intros acc Hall.
  - exists []. split; [|constructor]. simpl. by rewrite app_nil_r.
  - destruct (Hall id) as [content Hc]; [by left|].
    destruct (author_of_value content) as (a & Ha & _).
    destruct (IH (acc ++ [a])) as (new & Hloop & Hnew).
    { intros id' Hin. apply Hall. by right. }
    exists (a :: new). split.
    + cbn [map authors.authors_loop]. rewrite Hc, Ha, Hloop.
      by rewrite <- app_assoc.
    + constructor; [by exists content|exact Hnew].
Qed.

Lemma authors_loop_values data ids : forall acc l,
  authors.authors_loop data ids acc = Ok l ->
  exists new,
    l = acc ++ new /\
    Forall (fun a => a <> ""%string /\ clean a = true) new.
Proof.
  induction ids as [|id ids IH]; intros acc l.
  - intros [= <-]. exists []. split; [by rewrite app_nil_r|constructor].
  - cbn [authors.authors_loop].
    destruct (authors.content_of data id) as [content|]; [|discriminate].
    destruct (author_of_value content) as (a & Ha & Hne & Hclean).
    rewrite Ha. intros Hloop.
    destruct (IH _ _ Hloop) as (new & -> & Hnew).
    exists (a :: new). split; [by rewrite <- app_assoc|].
    by constructor.
Qed.

(** The first page whose content cannot be read ends the loop with the
    exception of that lookup. *)
Lemma authors_loop_raises data before id after e :
  (forall x, x ∈ before ->
     exists content, authors.content_of data (pretty x) = Ok content) ->
  authors.content_of data (pretty id) = Raise e ->
  authors.get_authors data (before ++ id :: after) = Raise e.
Proof.
  intros Hbefore Hid. unfold authors.get_authors.
  generalize (@nil string).
  induction before as [|x before IH]; intros acc.
  - cbn [app map authors.authors_loop]. by rewrite Hid.
  - cbn [app map authors.authors_loop].
    destruct (Hbefore x) as [content ->]; [by left|].
    destruct (author_of_value content) as (a & -> & _).
    apply IH. intros y Hy. apply Hbefore. by right.
Qed.

(** X20: when the response has a revision for every page, the result has
    one entry per page, in the order of the pages: the author read from the
    content of that page. *)
Theorem X20_one_author_per_page data set_of_pages :
  (forall id, id ∈ set_of_pages ->
     exists content, authors.content_of data (pretty id) = Ok content) ->
  exists l,
    authors.get_authors data set_of_pages = Ok l /\
    Forall2
      (fun id a =>
         exists content,
           authors.content_of data (pretty id) = Ok content /\
           authors.author_of content = Ok a)
      set_of_pages l.
Proof.
  intros Hall. unfold authors.get_authors.
  destruct (authors_loop_run data set_of_pages [] Hall) as (new & H & Hnew).
  exists new. split; [exact H|exact Hnew].
Qed.

Lemma X20_one_author_per_page_witness :
  exists l,
    authors.get_authors MoreExamples.response [12; 7; 12] = Ok l /\
    Forall2
      (fun id a =>
         exists content,
           authors.content_of MoreExamples.response (pretty id)
             = Ok content /\
           authors.author_of content = Ok a)
      [12; 7; 12] l.
Proof.
  apply X20_one_author_per_page.
  intros id Hin. apply list_elem_of_In in Hin.
  destruct Hin as [<-|[<-|[<-|[]]]]; vm_compute; by eexists.
Defined.

(** X21: the first page whose content cannot be read ends the call with
    the exception of that lookup, and the authors found before are lost:
    a KeyError for the page id when the pages of the response have no
    entry for it, a KeyError for 'revisions' when the entry has no
    revisions (as for an id that no page has), an IndexError when the list
    of revisions is empty, a KeyError for '*' when the first revision has
    no content. *)
Theorem X21_missing_page_raises data before id after :
  (forall x, x ∈ before ->
     exists content, authors.content_of data (pretty x) = Ok content) ->
  (forall e,
      authors.content_of data (pretty id) = Raise e ->
      authors.get_authors data (before ++ id :: after) = Raise e)
  /\
  (forall ps,
      authors.query data = Some (authors.mkQuery (Some ps)) ->
      (ps !! pretty id = None ->
       authors.get_authors data (before ++ id :: after)
       = Raise (KeyError (pretty id)))
      /\
      (ps !! pretty id = Some (authors.mkPageInfo None) ->
       authors.get_authors data (before ++ id :: after)
       = Raise (KeyError "revisions"))
      /\
      (ps !! pretty id = Some (authors.mkPageInfo (Some [])) ->
       authors.get_authors data (before ++ id :: after) = Raise IndexError)
      /\
      (forall revs,
          ps !! pretty id
          = Some (authors.mkPageInfo
                    (Some (authors.mkRevision None :: revs))) ->
          authors.get_authors data (before ++ id :: after)
          = Raise (KeyError "*"))).
Proof.
  intros Hbefore. split.
  - intros e He. by apply authors_loop_raises.
  - intros ps Hq.
    split; [|split; [|split]]; intros; apply authors_loop_raises;
      try exact Hbefore; unfold authors.content_of; rewrite Hq;
      cbn [authors.pages];
      match goal with H : ps !! _ = _ |- _ => rewrite H end; reflexivity.
Qed.

Lemma X21_missing_page_raises_witness :
  authors.get_authors MoreExamples.response ([12] ++ 13 :: [7])
    = Raise (KeyError "revisions") /\
  authors.get_authors MoreExamples.response ([12] ++ 99 :: [7])
    = Raise (KeyError (pretty 99)).
Proof.
  assert (Hbefore : forall x, x ∈ [12] ->
            exists content,
              authors.content_of MoreExamples.response (pretty x)
              = Ok content).
  { intros x Hx. apply list_elem_of_In in Hx.
    destruct Hx as [<-|[]]. vm_compute. by eexists. }
  split.
  - apply (proj1 (X21_missing_page_raises MoreExamples.response [12] 13 [7]
                    Hbefore)).
    reflexivity.
  - refine (proj1 (proj2 (X21_missing_page_raises MoreExamples.response
                            [12] 99 [7] Hbefore) _ eq_refl) _).
    reflexivity.
Defined.

(** X22: an author in the result is never the empty string and has none of
    the characters the name pattern excludes (brackets, [|], [+], [&],
    quotes); "NA" stands for the pages without a name. *)
Theorem X22_authors_are_clean data set_of_pages l :
  authors.get_authors data set_of_pages = Ok l ->
  Forall (fun a => a <> ""%string /\ clean a = true) l.
Proof.
  unfold authors.get_authors. intros H.
  by apply authors_loop_values in H as (new & -> & Hnew).
Qed.

Lemma X22_authors_are_clean_witness :
  authors.get_authors MoreExamples.response [12; 7]
    = Ok ["Snorri Sturluson"%string; "NA"%string] /\
  Forall (fun a => a <> ""%string /\ clean a = true)
    ["Snorri Sturluson"%string; "NA"%string].
Proof.
  split; [vm_compute; reflexivity|].
  apply (X22_authors_are_clean MoreExamples.response [12; 7]).
  vm_compute; reflexivity.
Defined.

(** X23: a content in which "author" does not occur gives "NA", and so
    does a content without a newline, whatever it has: an author field on
    a last line that no newline ends is not found. *)
Theorem X23_no_field_gives_NA content :
  (re.occurs "author" content = false ->
   authors.author_of content = Ok "NA"%string) /\
  (one_line content = true ->
   authors.author_of content = Ok "NA"%string).
Proof.
  split; intros H; rewrite author_of_match.
  - by rewrite (search_author_no_occurrence _ H).
  - by rewrite (search_author_one_line _ H).
Qed.

Lemma X23_no_field_gives_NA_witness :
  authors.author_of "A page without infobox." = Ok "NA"%string /\
  authors.author_of "| author = [[Snorri Sturluson]]" = Ok "NA"%string.
Proof.
  split.
  - apply (proj1 (X23_no_field_gives_NA "A page without infobox.")).
    reflexivity.
  - apply (proj2 (X23_no_field_gives_NA "| author = [[Snorri Sturluson]]")).
    reflexivity.
Defined.

(** X24: the first field decides.  For a content with "author", blanks,
    "=" and a line [l] ended by a newline, where no "author" starts before
    it, the result is the name found in [l] (stripped), or "NA" when [l]
    has none; what follows the line plays no role. *)
Theorem X24_first_author_field_decides pre sp l post :
  re.occurs "author" (pre ++ "autho") = false ->
  only_blanks sp = true -> one_line l = true ->
  authors.author_of
    (pre ++ "author" ++ sp ++ String "=" (l ++ String authors.newline post))
  = Ok (default "NA"%string
          (authors.search_name
             (authors.strip (l ++ String authors.newline "")))).
Proof. apply author_of_first_field. Qed.

Lemma X24_first_author_field_decides_witness :
  authors.author_of
    ("| name = Edda; " ++ "author" ++ "  " ++
     String "=" (" Snorri (poet)" ++
                 String authors.newline "| author = Someone else"))
  = Ok (default "NA"%string
          (authors.search_name
             (authors.strip (" Snorri (poet)" ++ String authors.newline "")))).
Proof.
  apply X24_first_author_field_decides; reflexivity.
Defined.

Lemma lstrip_blanks ws x :
  only_blanks ws = true -> authors.lstrip (ws ++ x) = authors.lstrip x.
Proof.
  induction ws as [|c ws IH]; [reflexivity|].
  cbn [only_blanks all_chars]. intros H.
  apply andb_true_iff in H as [Hc Hws]. apply Ascii.eqb_eq in Hc as ->.
  rewrite string_app_cons. cbn [authors.lstrip].
  change (authors.is_space " ") with true. cbv iota. by apply IH.
Qed.

Lemma rstrip_stop a c s :
  authors.is_space c = false ->
  authors.rstrip (a ++ String c s) = (a ++ String c (authors.rstrip s))%string.
Proof.
  intros Hc. induction a as [|x a IH].
  - change ("" ++ String c s)%string with (String c s).
    change ("" ++ String c (authors.rstrip s))%string
      with (String c (authors.rstrip s)).
    cbn [authors.rstrip]. rewrite Hc. by destruct (authors.rstrip s).
  - rewrite !string_app_cons. cbn [authors.rstrip]. rewrite IH.
    by destruct a.
Qed.

Lemma run_stop name e z :
  clean name = true -> authors.excluded e = true ->
  authors.run (name ++ String e z) = name.
Proof.
  intros Hname He. induction name as [|c name IH].
  - change ("" ++ String e z)%string with (String e z).
    cbn [authors.run]. by rewrite He.
  - cbn [clean all_chars] in Hname.
    apply andb_true_iff in Hname as [Hc Hname].
    apply negb_true_iff in Hc.
    rewrite string_app_cons. cbn [authors.run]. rewrite Hc.
    fold clean in Hname. by rewrite (IH Hname).
Qed.

(** X25: a linked name is read back.  For a content whose first author
    field has, after blanks, a name in double square brackets, the result
    is that name, when the name is not empty, stays on the line and has
    none of the excluded characters; what follows the brackets on the line
    is dropped. *)
Theorem X25_linked_author_read_back pre sp ws name z post :
  re.occurs "author" (pre ++ "autho") = false ->
  only_blanks sp = true -> only_blanks ws = true ->
  name <> ""%string -> clean name = true -> one_line name = true ->
  one_line z = true ->
  authors.author_of
    (pre ++ "author" ++ sp ++
     String "=" ((ws ++ "[[" ++ name ++ "]]" ++ z)
                 ++ String authors.newline post))
  = Ok name.
Proof.
  intros Hpre Hsp Hws Hne Hclean Hname Hz.
  rewrite author_of_first_field; [|exact Hpre|exact Hsp|].
  - f_equal. rewrite string_app_assoc.
    unfold authors.strip. rewrite (lstrip_blanks _ _ Hws).
    change ("[[" ++ name ++ "]]" ++ z)%string
      with (String "[" (String "[" (name ++ String "]" (String "]" z)))).
    rewrite !string_app_cons. cbn [authors.lstrip].
    change (authors.is_space "[") with false. cbv iota.
    replace (String "[" (String "[" ((name ++ String "]" (String "]" z))
                                     ++ String authors.newline "")))
      with ((String "[" (String "[" (name ++ String "]" "")))
            ++ String "]" (z ++ String authors.newline ""))%string.
    + rewrite rstrip_stop by reflexivity.
      rewrite !string_app_cons, string_app_assoc.
      cbn [authors.search_name].
      change (authors.excluded "[") with true. cbv iota.
      destruct name as [|c name]; [done|].
      rewrite string_app_cons. cbn [authors.search_name].
      cbn [clean all_chars] in Hclean.
      apply andb_true_iff in Hclean as [Hc Hclean].
      apply negb_true_iff in Hc. rewrite Hc.
      rewrite <- string_app_cons. cbn [default]. f_equal.
      apply run_stop; [|reflexivity].
      cbn [clean all_chars]. by rewrite Hc.
    + rewrite !string_app_cons, !string_app_assoc. reflexivity.
  - unfold one_line in *. rewrite !all_chars_app.
    rewrite Hname, Hz, andb_true_r.
    assert (Hb : all_chars (fun c => negb (Ascii.eqb c authors.newline)) ws
                 = true).
    { clear -Hws. induction ws as [|c ws IH]; [reflexivity|].
      cbn [only_blanks all_chars] in *.
      apply andb_true_iff in Hws as [Hc Hws].
      apply Ascii.eqb_eq in Hc as ->. by rewrite (IH Hws). }
    rewrite Hb. reflexivity.
Qed.

Lemma X25_linked_author_read_back_witness :
  authors.author_of
    ("{{Infobox book | " ++ "author" ++ " " ++
     String "=" ((" " ++ "[[" ++ "Snorri Sturluson" ++ "]]" ++ " (attributed)")
                 ++ String authors.newline "| language = Old Norse"))
  = Ok "Snorri Sturluson"%string.
Proof.
  apply X25_linked_author_read_back; try reflexivity. discriminate.
Defined.
